(** * intel_agent.py: the competitive-intelligence pipeline

    A shallow embedding of [src/intel_agent.py].  The five stage functions,
    the workflow graph built by [create_workflow] and the entry code of
    [main] are transcribed as functions in a small monad that carries what
    the program writes to the console and which URLs it requests, and in
    which a collaborator call may raise: a request, the parser, and
    [console.print], which reads the text it is given as markup and rejects
    some of it.

    The third-party collaborators are not part of the program.  Their
    behaviour is the [World] the program runs in ([str.lower],
    [requests.get], the HTML parser, the console's reading of markup, the
    clock), or is modelled next to the program from the libraries'
    documented behaviour ([find_all], the workflow executor) and marked as
    such. *)

From Stdlib Require Import NArith Ascii String Strings.Byte.
From stdpp Require Import base option list gmap pretty relations.

Open Scope N_scope.
Open Scope nat_scope.

(** ** Python values *)

(** A Python [str] is a sequence of code points. *)
Abbreviation pystr := (list N).

(** The code points of an ASCII literal of the source. *)
Definition lit (s : string) : pystr :=
  N_of_ascii <$> list_ascii_of_string s.

(** [str(n)] for a non-negative [int]. *)
Definition str_of_nat (n : nat) : pystr := lit (pretty n).

(** Truthiness of a sequence: [if title], [not state["job_data"]]. *)
Definition truthy {A} (l : list A) : bool :=
  match l with [] => false | _ :: _ => true end.

(** [needle in haystack] on strings. *)
Fixpoint startswith (needle haystack : pystr) : bool :=
  match needle, haystack with
  | [], _ => true
  | _ :: _, [] => false
  | a :: needle', b :: haystack' =>
      if decide (a = b) then startswith needle' haystack' else false
  end.

Fixpoint contains (needle haystack : pystr) : bool :=
  startswith needle haystack ||
  match haystack with
  | [] => false
  | _ :: haystack' => contains needle haystack'
  end.

(** [sep.join(items)]. *)
Fixpoint join (sep : pystr) (items : list pystr) : pystr :=
  match items with
  | [] => []
  | [x] => x
  | x :: rest => x ++ sep ++ join sep rest
  end.

(** ** Effects: console output, HTTP requests, exceptions *)

(** An instance of [Exception] with its message, [str(e)]. *)
Inductive exn := Exception (msg : pystr).

Definition str_exn (e : exn) : pystr :=
  match e with Exception msg => msg end.

Inductive outcome (A : Type) : Type :=
| Ok (a : A)
| Raise (e : exn).
Arguments Ok {A} a.
Arguments Raise {A} e.

(** What [console.print] is given: a markup string, the report table, or
    the banner panel of [main]. *)
Inductive renderable :=
| Markup (s : pystr)
| RichTable (title : pystr) (columns : list pystr) (rows : list (pystr * pystr))
| RichPanel (body : pystr).

(** The observable effects of a run so far: everything printed on the
    console, in order, and every URL handed to [requests.get], in order. *)
Record IO := mkIO {
  stdout : list renderable;
  requested : list pystr
}.

Definition M (A : Type) : Type := IO -> outcome A * IO.

Definition ret {A} (a : A) : M A := fun io => (Ok a, io).

Definition bind {A B} (m : M A) (k : A -> M B) : M B :=
  fun io =>
    match m io with
    | (Ok a, io') => k a io'
    | (Raise e, io') => (Raise e, io')
    end.

Definition raise {A} (e : exn) : M A := fun io => (Raise e, io).

(** [try: body except Exception as e: handler e]. *)
Definition try_except {A} (body : M A) (handler : exn -> M A) : M A :=
  fun io =>
    match body io with
    | (Ok a, io') => (Ok a, io')
    | (Raise e, io') => handler e io'
    end.

(** The result of a collaborator call that has no effect of its own. *)
Definition lift {A} (r : outcome A) : M A := fun io => (r, io).

#[global] Instance M_ret : MRet M := @ret.
#[global] Instance M_bind : MBind M := fun A B k m => bind m k.

(** ** The state threaded through the stages *)

(** One entry of [job_data] or [news_data]:
    [{"title": ..., "source": ...}]. *)
Record item := mkItem {
  title : pystr;
  source : pystr
}.

(** [class IntelState(TypedDict)]. *)
Record IntelState := mkState {
  competitor : pystr;
  target_urls : list pystr;
  job_data : list item;
  news_data : list item;
  insights : pystr;
  use_mcp : bool
}.

(** [{**state, "target_urls": v}] and its three siblings. *)
Definition with_target_urls (v : list pystr) (state : IntelState) : IntelState :=
  mkState (competitor state) v (job_data state) (news_data state)
          (insights state) (use_mcp state).

Definition with_job_data (v : list item) (state : IntelState) : IntelState :=
  mkState (competitor state) (target_urls state) v (news_data state)
          (insights state) (use_mcp state).

Definition with_news_data (v : list item) (state : IntelState) : IntelState :=
  mkState (competitor state) (target_urls state) (job_data state) v
          (insights state) (use_mcp state).

Definition with_insights (v : pystr) (state : IntelState) : IntelState :=
  mkState (competitor state) (target_urls state) (job_data state)
          (news_data state) v (use_mcp state).

(** ** The collaborators *)

(** A [requests] response: its status, which the program never looks at,
    and its body. *)
Record response := mkResponse {
  status_code : nat;
  content : list byte
}.

(** A tag of a parsed document, as far as the program looks at it: its
    name, its [class] attribute ([None] when absent, else the list of its
    values) and [get_text(strip=True)]. *)
Record element := mkElement {
  name : pystr;
  class_attr : option (list pystr);
  get_text : pystr
}.

(** A parsed document: its tags in document order, the order in which
    [find_all] visits them (a nested tag follows the tag that holds it). *)
Abbreviation soup := (list element).

(** What the program does not define and the run depends on. *)
Record World := mkWorld {
  (** [str.lower] and [str.upper] *)
  lower : pystr -> pystr;
  upper : pystr -> pystr;
  (** [requests.get(url, headers=..., timeout=...)] *)
  requests_get : pystr -> list (pystr * pystr) -> nat -> outcome response;
  (** [BeautifulSoup(content, 'html.parser')] *)
  BeautifulSoup : list byte -> outcome soup;
  (** [datetime.now().strftime('%Y-%m-%d %H:%M:%S')] *)
  now_strftime : pystr;
  (** what the console makes of a write: it renders it, or raises because
      it cannot read the text as markup *)
  rich_render : renderable -> outcome unit
}.

(** ** The console *)

(** The style tags of the program's messages. *)
Definition styles : list pystr :=
  [lit "blue"; lit "yellow"; lit "green"; lit "red"; lit "bold cyan";
   lit "bold blue"].

(** [text] between the opening and the closing tag of [style]. *)
Definition tagged (style text : pystr) : pystr :=
  lit "[" ++ style ++ lit "]" ++ text ++ lit "[/" ++ style ++ lit "]".

(** [s] without the prefix [p], and without the suffix [q]. *)
Fixpoint without_prefix (p s : pystr) : option pystr :=
  match p, s with
  | [], _ => Some s
  | _ :: _, [] => None
  | a :: p', b :: s' => if decide (a = b) then without_prefix p' s' else None
  end.

Definition without_suffix (q s : pystr) : option pystr :=
  reverse <$> without_prefix (reverse q) (reverse s).

(** A character that cannot start or escape a tag: neither an opening
    bracket nor a backslash. *)
Definition plain_char (c : N) : bool :=
  negb (c =? 91)%N && negb (c =? 92)%N.

(** Markup the console cannot take amiss: one of the program's style
    tags, opened at the start and closed at the end, around text with no
    bracket to open another tag and no backslash. *)
Definition harmless (s : pystr) : bool :=
  existsb (fun style =>
    match without_prefix (lit "[" ++ style ++ lit "]") s with
    | None => false
    | Some rest =>
        match without_suffix (lit "[/" ++ style ++ lit "]") rest with
        | None => false
        | Some text => forallb plain_char text
        end
    end) styles.

(** The outcome of [console.print(r)]: harmless markup is rendered; what
    becomes of any other write is up to the console. *)
Definition console (w : World) (r : renderable) : outcome unit :=
  match r with
  | Markup s => if harmless s then Ok tt else rich_render w r
  | _ => rich_render w r
  end.

(** bs4 matches a filter against a multi-valued attribute value by value,
    and then against the values joined by spaces; an absent attribute is
    offered as [None]. *)
Definition attr_matches (f : option pystr -> bool) (v : option (list pystr)) : bool :=
  match v with
  | None => f None
  | Some values =>
      existsb (fun x => f (Some x)) values || f (Some (join (lit " ") values))
  end.

(** [soup.find_all(names, class_=f, limit=n)]: the tags with one of the
    names whose class passes [f], in document order, at most [n] of them. *)
Definition find_all (names : list pystr) (class_ : option (option pystr -> bool))
    (limit : option nat) (doc : soup) : list element :=
  let hit (e : element) : bool :=
    bool_decide (name e ∈ names) &&
    match class_ with
    | None => true
    | Some f => attr_matches f (class_attr e)
    end in
  let found := List.filter hit doc in
  match limit with
  | None => found
  | Some n => take n found
  end.

(** ** The stage functions *)

(** Code points of the pictographs in the console messages. *)
Definition DART : pystr := [127919%N].
Definition MAGNIFIER : pystr := [128269%N].
Definition CHECK_MARK : pystr := [9989%N].
Definition CROSS_MARK : pystr := [10060%N].
Definition NEWSPAPER : pystr := [128240%N].
Definition BRAIN : pystr := [129504%N].
Definition BAR_CHART : pystr := [128202%N].
Definition ROCKET : pystr := [128640%N].
Definition BULB : pystr := [128161%N].
Definition BULLET : pystr := [8226%N].
Definition NEWLINE : pystr := [10%N].

(** The header sent with both requests. *)
Definition headers : list (pystr * pystr) :=
  [(lit "User-Agent",
    lit "Mozilla/5.0 (Windows NT 10.0; Win64; x64) AppleWebKit/537.36")].

(** The body of the two extraction loops (lines 63-68 and 99-104), which
    differ in the source tag only: keep a title longer than 10 characters,
    cut to its first 100. *)
Definition keep_title (src : pystr) (acc : list item) (e : element) : list item :=
  let title := get_text e in
  if truthy title && bool_decide (10 < length title)
  then acc ++ [mkItem (take 100 title) src]
  else acc.

Section Stages.
Context (w : World).

(** [console.print(r)]: the write appears on the console, or the console
    raises and nothing of it appears. *)
Definition console_print (r : renderable) : M unit :=
  fun io =>
    match console w r with
    | Ok _ => (Ok tt, mkIO (stdout io ++ [r]) (requested io))
    | Raise e => (Raise e, io)
    end.

(** [requests.get]: the request goes out, whatever comes back. *)
Definition http_get (url : pystr) (hdrs : list (pystr * pystr)) (timeout : nat)
    : M response :=
  fun io =>
    (requests_get w url hdrs timeout, mkIO (stdout io) (requested io ++ [url])).

Definition intelligence_planner (state : IntelState) : M IntelState :=
  let competitor := competitor state in
  console_print (Markup (lit "[blue]" ++ DART ++
    lit " Planning intelligence gathering for " ++ competitor ++ lit "[/blue]"));;
  let target_urls := [
    lit "https://www." ++ lower w competitor ++ lit ".com/careers";
    lit "https://www." ++ lower w competitor ++ lit ".com/blog";
    lit "https://www." ++ lower w competitor ++ lit ".com/changelog"
  ] in
  mret (with_target_urls target_urls state).

(** [lambda x: x and ('job' in x.lower() or 'position' in x.lower())] *)
Definition job_class (x : option pystr) : bool :=
  match x with
  | None => false
  | Some x =>
      truthy x &&
      (contains (lit "job") (lower w x) || contains (lit "position") (lower w x))
  end.

Definition job_scout (state : IntelState) : M IntelState :=
  let competitor := competitor state in
  console_print (Markup (lit "[yellow]" ++ MAGNIFIER ++
    lit " Scouting jobs for " ++ competitor ++ lit "...[/yellow]"));;
  job_data ← try_except
    (let careers_url := lit "https://www." ++ lower w competitor ++ lit ".com/careers" in
     response ← http_get careers_url headers 10;
     soup ← lift (BeautifulSoup w (content response));
     let job_elements :=
       find_all [lit "div"; lit "li"] (Some job_class) None soup in
     let job_data :=
       foldl (keep_title (lit "careers_page")) [] (take 3 job_elements) in
     console_print (Markup (lit "[green]" ++ CHECK_MARK ++ lit " Found " ++
       str_of_nat (length job_data) ++ lit " job listings[/green]"));;
     mret job_data)
    (fun e =>
     console_print (Markup (lit "[red]" ++ CROSS_MARK ++
       lit " Job scraping failed: " ++ str_exn e ++ lit "[/red]"));;
     mret []);
  mret (with_job_data job_data state).

Definition news_hunter (state : IntelState) : M IntelState :=
  let competitor := competitor state in
  console_print (Markup (lit "[yellow]" ++ NEWSPAPER ++
    lit " Hunting news for " ++ competitor ++ lit "...[/yellow]"));;
  news_data ← try_except
    (let blog_url := lit "https://www." ++ lower w competitor ++ lit ".com/blog" in
     response ← http_get blog_url headers 10;
     soup ← lift (BeautifulSoup w (content response));
     let articles :=
       find_all [lit "h1"; lit "h2"; lit "h3"] None (Some 3) soup in
     let news_data := foldl (keep_title (lit "blog")) [] articles in
     console_print (Markup (lit "[green]" ++ CHECK_MARK ++ lit " Found " ++
       str_of_nat (length news_data) ++ lit " news items[/green]"));;
     mret news_data)
    (fun e =>
     console_print (Markup (lit "[red]" ++ CROSS_MARK ++
       lit " News scraping failed: " ++ str_exn e ++ lit "[/red]"));;
     mret []);
  mret (with_news_data news_data state).

Definition insight_generator (state : IntelState) : M IntelState :=
  console_print (Markup (lit "[yellow]" ++ BRAIN ++
    lit " Generating insights...[/yellow]"));;
  if negb (truthy (job_data state)) && negb (truthy (news_data state))
  then mret (with_insights (lit "No data available for analysis") state)
  else
    let insights :=
      lit "Basic scraping completed - limited insights available without MCP" in
    mret (with_insights insights state).

(** The [for] loops of the report: one bullet line per entry. *)
Definition print_titles (entries : list item) : M unit :=
  foldl (fun m entry =>
           m;; console_print (Markup (BULLET ++ lit " " ++ title entry)))
        (mret tt) entries.

Definition dashboard_builder (state : IntelState) : M IntelState :=
  let competitor := competitor state in
  let table := RichTable
    (DART ++ lit " COMPETITIVE INTELLIGENCE REPORT - " ++ upper w competitor)
    [lit "Category"; lit "Data"]
    [(lit "Target", competitor);
     (lit "Scan Time", now_strftime w);
     (lit "Jobs Found", str_of_nat (length (job_data state)));
     (lit "News Found", str_of_nat (length (news_data state)))] in
  console_print table;;
  (if truthy (job_data state)
   then
     console_print (Markup (NEWLINE ++ lit "[bold cyan]" ++ BAR_CHART ++
       lit " HIRING ACTIVITY:[/bold cyan]"));;
     print_titles (job_data state)
   else
     console_print (Markup (NEWLINE ++ lit "[red]" ++ BAR_CHART ++
       lit " No job data available[/red]")));;
  (if truthy (news_data state)
   then
     console_print (Markup (NEWLINE ++ lit "[bold cyan]" ++ ROCKET ++
       lit " RECENT NEWS:[/bold cyan]"));;
     print_titles (news_data state)
   else
     console_print (Markup (NEWLINE ++ lit "[red]" ++ ROCKET ++
       lit " No news data available[/red]")));;
  console_print (Markup (NEWLINE ++ lit "[bold cyan]" ++ BULB ++
    lit " KEY INSIGHTS:[/bold cyan]"));;
  console_print (Markup (insights state));;
  console_print (Markup (NEWLINE ++ replicate 60 61%N));;
  mret state.

End Stages.

(** ** The workflow graph *)

(** A node of the graph: a stage function. *)
Abbreviation node_fn := (IntelState -> M IntelState).

(** [StateGraph(IntelState)]: the nodes by name and the edges in the order
    they were added.  The entry point is the edge from [START]. *)
Record StateGraph := mkGraph {
  nodes : gmap pystr node_fn;
  edges : list (pystr * pystr)
}.

Definition START : pystr := lit "__start__".
Definition END : pystr := lit "__end__".

Definition empty_graph : StateGraph := mkGraph ∅ [].

Definition add_node (key : pystr) (f : node_fn) (g : StateGraph) : StateGraph :=
  mkGraph (<[key := f]> (nodes g)) (edges g).

Definition add_edge (a b : pystr) (g : StateGraph) : StateGraph :=
  mkGraph (nodes g) (edges g ++ [(a, b)]).

Definition set_entry_point (key : pystr) (g : StateGraph) : StateGraph :=
  add_edge START key g.

(** The nodes an edge leads to from [n]. *)
Definition successors (g : StateGraph) (n : pystr) : list pystr :=
  snd <$> filter (fun e => e.1 = n) (edges g).

(** The nodes among [active] that are still to run. *)
Definition pending (active : list pystr) : list pystr :=
  filter (fun n => n ≠ END) active.

(** The default [recursion_limit] of a compiled graph. *)
Definition recursion_limit : nat := 25.

(** The executor of a compiled graph, one superstep per round: the pending
    node runs on the current state, its result is the next state and its
    successors are the next to run; the run is over when nothing is
    pending.  Every stage of this program returns the whole state, so two
    nodes in one superstep would write the same keys, which the executor
    refuses; so does it refuse to go beyond the recursion limit. *)
Fixpoint pregel (g : StateGraph) (fuel : nat) (active : list pystr)
    (state : IntelState) : M IntelState :=
  match pending active with
  | [] => mret state
  | [n] =>
      match fuel with
      | 0 => raise (Exception (lit "GraphRecursionError"))
      | S fuel' =>
          match nodes g !! n with
          | None => raise (Exception (lit "KeyError"))
          | Some f => state' ← f state; pregel g fuel' (successors g n) state'
          end
      end
  | _ => raise (Exception (lit "InvalidUpdateError"))
  end.

(** [app.invoke(state)] on the compiled graph. *)
Definition invoke (app : StateGraph) (state : IntelState) : M IntelState :=
  pregel app recursion_limit (successors app START) state.

(** A superstep as a transition: what is to run, the state, the effects. *)
Record config := mkConfig {
  active : list pystr;
  current : IntelState;
  effects : IO
}.

Inductive step (g : StateGraph) : config -> config -> Prop :=
| step_node act n f state state' io io' :
    pending act = [n] ->
    nodes g !! n = Some f ->
    f state io = (Ok state', io') ->
    step g (mkConfig act state io) (mkConfig (successors g n) state' io').

(** A plain ordered list of stage functions executed by a simple loop:
    what the spec says the workflow comes down to. *)
Fixpoint run_stages (fs : list node_fn) (state : IntelState) : M IntelState :=
  match fs with
  | [] => mret state
  | f :: rest => state' ← f state; run_stages rest state'
  end.

Section Workflow.
Context (w : World).

Definition create_workflow : StateGraph :=
  let workflow := empty_graph in
  let workflow := add_node (lit "planner") (intelligence_planner w) workflow in
  let workflow := add_node (lit "jobs") (job_scout w) workflow in
  let workflow := add_node (lit "news") (news_hunter w) workflow in
  let workflow := add_node (lit "insight_gen") (insight_generator w) workflow in
  let workflow := add_node (lit "dashboard") (dashboard_builder w) workflow in
  let workflow := set_entry_point (lit "planner") workflow in
  let workflow := add_edge (lit "planner") (lit "jobs") workflow in
  let workflow := add_edge (lit "jobs") (lit "news") workflow in
  let workflow := add_edge (lit "news") (lit "insight_gen") workflow in
  let workflow := add_edge (lit "insight_gen") (lit "dashboard") workflow in
  let workflow := add_edge (lit "dashboard") END workflow in
  workflow.

(** The state [main] starts the workflow from. *)
Definition initial_state (args_competitor : pystr) : IntelState :=
  mkState args_competitor [] [] [] [] false.

(** The pipeline run of [main]: the workflow invoked on the initial state. *)
Definition run (args_competitor : pystr) : M IntelState :=
  let app := create_workflow in
  invoke app (initial_state args_competitor).


(** The states a run goes through: the configurations the executor reaches
    from the initial one. *)
Definition reachable (args_competitor : pystr) (io : IO) (c : config) : Prop :=
  rtc (step create_workflow)
      (mkConfig (successors create_workflow START)
                (initial_state args_competitor) io) c.

(** The five stages in the order of the spec, as a plain list. *)
Definition stages : list node_fn :=
  [intelligence_planner w; job_scout w; news_hunter w; insight_generator w;
   dashboard_builder w].

End Workflow.

(** ** Worlds to run the program in *)

(** [str.lower] and [str.upper] on ASCII text. *)
Definition ascii_lower (s : pystr) : pystr :=
  (fun c => if (65 <=? c)%N && (c <=? 90)%N then (c + 32)%N else c) <$> s.

Definition ascii_upper (s : pystr) : pystr :=
  (fun c => if (97 <=? c)%N && (c <=? 122)%N then (c - 32)%N else c) <$> s.

(** A console for these worlds, after the tag matching of rich: a tag is
    an unescaped bracket pair around text that starts with a lower-case
    letter, [#], [/] or [@] and holds no opening bracket; an opening tag is
    remembered; a closing tag must close a remembered tag of its name, or
    with no name the last one, and is an error otherwise.  Style names are
    compared as written. *)
Record scan := mkScan {
  open_tags : list pystr;
  tag_text : option pystr;
  backslashes : nat
}.

Definition tag_start (c : N) : bool :=
  ((97 <=? c)%N && (c <=? 122)%N) || (c =? 35)%N || (c =? 47)%N || (c =? 64)%N.

Definition strip_spaces (s : pystr) : pystr :=
  let drop := fix drop (s : pystr) : pystr :=
    match s with
    | c :: s' => if (c =? 32)%N then drop s' else s
    | [] => []
    end in
  reverse (drop (reverse (drop s))).

Fixpoint close_named (style : pystr) (stack : list pystr) : option (list pystr) :=
  match stack with
  | [] => None
  | t :: stack' =>
      if decide (t = style) then Some stack'
      else cons t <$> close_named style stack'
  end.

(** The name of a tag: its text up to an equals sign. *)
Fixpoint tag_name (text : pystr) : pystr :=
  match text with
  | [] => []
  | c :: text' => if (c =? 61)%N then [] else c :: tag_name text'
  end.

Definition MarkupError : exn :=
  Exception (lit "closing tag does not match any open tag").

(** The tag [text] met with the tags of [stack] open, the last one first. *)
Definition apply_tag (text : pystr) (stack : list pystr) : outcome (list pystr) :=
  let name := tag_name text in
  match name with
  | 47%N :: style =>
      match strip_spaces style with
      | [] =>
          match stack with
          | [] => Raise MarkupError
          | _ :: stack' => Ok stack'
          end
      | style' =>
          match close_named style' stack with
          | None => Raise MarkupError
          | Some stack' => Ok stack'
          end
      end
  | _ => Ok (name :: stack)
  end.

Definition scan_char (st : outcome scan) (c : N) : outcome scan :=
  match st with
  | Raise e => Raise e
  | Ok st =>
      if (c =? 91)%N then
        Ok (mkScan (open_tags st)
              (if Nat.even (backslashes st) then Some [] else None) 0)
      else
        match tag_text st with
        | None =>
            Ok (mkScan (open_tags st) None
                  (if (c =? 92)%N then S (backslashes st) else 0))
        | Some text =>
            if (c =? 93)%N then
              match text with
              | first :: _ =>
                  if tag_start first then
                    match apply_tag text (open_tags st) with
                    | Ok stack => Ok (mkScan stack None 0)
                    | Raise e => Raise e
                    end
                  else Ok (mkScan (open_tags st) None 0)
              | [] => Ok (mkScan (open_tags st) None 0)
              end
            else
              Ok (mkScan (open_tags st) (Some (text ++ [c]))
                    (if (c =? 92)%N then S (backslashes st) else 0))
        end
  end.

Definition read_markup (s : pystr) : outcome unit :=
  match foldl scan_char (Ok (mkScan [] None 0)) s with
  | Ok _ => Ok tt
  | Raise e => Raise e
  end.

Definition read_all (texts : list pystr) : outcome unit :=
  foldl (fun r s => match r with Ok _ => read_markup s | Raise e => Raise e end)
        (Ok tt) texts.

Definition tag_matching (r : renderable) : outcome unit :=
  match r with
  | Markup s => read_markup s
  | RichTable title columns rows =>
      read_all (title :: columns ++ flat_map (fun row => [row.1; row.2]) rows)
  | RichPanel body => read_markup body
  end.

(** No network: every request raises. *)
Definition offline : World :=
  mkWorld ascii_lower ascii_upper
    (fun url _ _ => Raise (Exception (lit "Connection refused")))
    (fun _ => Ok [])
    (lit "2024-01-01 00:00:00")
    tag_matching.

Definition no_io : IO := mkIO [] [].

(** The world [w] with the answer to a request for [url] replaced by [r]. *)
Definition respond (w : World) (url : pystr) (r : outcome response) : World :=
  mkWorld (lower w) (upper w)
    (fun u hdrs timeout =>
       if decide (u = url) then r else requests_get w u hdrs timeout)
    (BeautifulSoup w) (now_strftime w) (rich_render w).

(** A careers page with three postings. *)
Definition three_postings : soup :=
  [mkElement (lit "li") (Some [lit "job"]) (lit "Senior Software Engineer");
   mkElement (lit "li") (Some [lit "job"; lit "featured"]) (lit "Staff Data Scientist");
   mkElement (lit "div") (Some [lit "open-position"]) (lit "Principal Product Designer")].

(** The same page with a short job-classed heading block before them. *)
Definition heading_then_postings : soup :=
  mkElement (lit "div") (Some [lit "jobs-header"]) (lit "Open roles")
  :: three_postings.

(** The page with a fourth posting after the three. *)
Definition four_postings : soup :=
  three_postings ++
  [mkElement (lit "li") (Some [lit "job"]) (lit "Distinguished Engineer")].



(** The bytes of two pages, which the parsers below tell apart by their
    length at most. *)
Definition page_bytes : list byte := [x3c; x68; x74; x6d; x6c; x3e].
Definition other_page_bytes : list byte := [x3c; x70; x3e].

(** Only the careers page of Acme answers, and it parses as [doc]. *)
Definition acme_careers (doc : soup) : World :=
  mkWorld ascii_lower ascii_upper
    (fun url _ _ =>
       if decide (url = lit "https://www.acme.com/careers")
       then Ok (mkResponse 200 page_bytes)
       else Raise (Exception (lit "404 Client Error")))
    (fun _ => Ok doc)
    (lit "2024-01-01 00:00:00")
    tag_matching.


(** A parser that knows two pages: three postings, and four. *)
Definition two_pages : World :=
  mkWorld ascii_lower ascii_upper
    (fun url _ _ => Raise (Exception (lit "Connection refused")))
    (fun body =>
       if length body =? length page_bytes
       then Ok three_postings else Ok four_postings)
    (lit "2024-01-01 00:00:00")
    tag_matching.

(** ** Views of the stages used in the statements below *)

(** The URL [job_scout] builds on line 51 and [news_hunter] on line 87. *)
Definition careers_url (w : World) (competitor : pystr) : pystr :=
  lit "https://www." ++ lower w competitor ++ lit ".com/careers".

Definition blog_url (w : World) (competitor : pystr) : pystr :=
  lit "https://www." ++ lower w competitor ++ lit ".com/blog".

(** What the [try] block of a scouting stage gets hold of: the parsed page
    behind [url], or the exception of the request or of the parser. *)
Definition fetched (w : World) (url : pystr) : outcome soup :=
  match requests_get w url headers 10 with
  | Ok response => BeautifulSoup w (content response)
  | Raise e => Raise e
  end.

(** A tag [job_scout] looks for: a [div] or [li] whose class mentions
    [job] or [position]. *)
Definition job_like (w : World) (e : element) : bool :=
  bool_decide (name e ∈ [lit "div"; lit "li"]) &&
  attr_matches (job_class w) (class_attr e).

(** A tag [news_hunter] looks for: a heading of one of the first three levels. *)
Definition heading (e : element) : bool :=
  bool_decide (name e ∈ [lit "h1"; lit "h2"; lit "h3"]).

(** A tag whose text passes the length filter of the extraction loops. *)
Definition long_enough (e : element) : Prop := 10 < length (get_text e).

(** The entry an extraction loop makes of a tag it keeps. *)
Definition entry (src : pystr) (e : element) : item :=
  mkItem (take 100 (get_text e)) src.

(** The entries the two scouting stages make of a parsed page. *)
Definition jobs_in (w : World) (doc : soup) : list item :=
  foldl (keep_title (lit "careers_page")) [] (take 3 (List.filter (job_like w) doc)).

Definition news_in (doc : soup) : list item :=
  foldl (keep_title (lit "blog")) [] (take 3 (List.filter heading doc)).

(** What the [except] clause leaves of a page that could not be had. *)
Definition or_nothing (f : soup -> list item) (page : outcome soup) : list item :=
  match page with
  | Ok doc => f doc
  | Raise _ => []
  end.

(** [m], run from [io], returns a value and effects that satisfy [post],
    unless it raises an exception, and then one that a console write has
    raised. *)
Definition unless_console_raises {A} (w : World) (m : M A) (io : IO)
    (post : A -> IO -> Prop) : Prop :=
  match m io with
  | (Ok a, io') => post a io'
  | (Raise e, _) => ∃ r, console w r = Raise e
  end.

(** [m] only writes to the console: it writes [out], in this order, and
    returns [a]; or the console rejects one of these writes, and then [m]
    raises what the console raised, with the writes before that one on the
    console and none after it. *)
Definition writes {A} (w : World) (m : M A) (a : A) (out : list renderable) : Prop :=
  ∀ io,
    match m io with
    | (Ok a', io') =>
        a' = a ∧ Forall (fun r => console w r = Ok tt) out ∧
        io' = mkIO (stdout io ++ out) (requested io)
    | (Raise e, io') =>
        ∃ before r,
          (before ++ [r]) `prefix_of` out ∧ console w r = Raise e ∧
          Forall (fun r' => console w r' = Ok tt) before ∧
          io' = mkIO (stdout io ++ before) (requested io)
    end.

(** The bullet lines the report prints for a list of entries. *)
Definition bullets (entries : list item) : list renderable :=
  (fun entry => Markup (BULLET ++ lit " " ++ title entry)) <$> entries.

(** What [dashboard_builder] prints for a state, line by line. *)
Definition report (w : World) (state : IntelState) : list renderable :=
  [RichTable
     (DART ++ lit " COMPETITIVE INTELLIGENCE REPORT - " ++ upper w (competitor state))
     [lit "Category"; lit "Data"]
     [(lit "Target", competitor state);
      (lit "Scan Time", now_strftime w);
      (lit "Jobs Found", str_of_nat (length (job_data state)));
      (lit "News Found", str_of_nat (length (news_data state)))]] ++
  (if truthy (job_data state)
   then Markup (NEWLINE ++ lit "[bold cyan]" ++ BAR_CHART ++
          lit " HIRING ACTIVITY:[/bold cyan]") :: bullets (job_data state)
   else [Markup (NEWLINE ++ lit "[red]" ++ BAR_CHART ++
          lit " No job data available[/red]")]) ++
  (if truthy (news_data state)
   then Markup (NEWLINE ++ lit "[bold cyan]" ++ ROCKET ++
          lit " RECENT NEWS:[/bold cyan]") :: bullets (news_data state)
   else [Markup (NEWLINE ++ lit "[red]" ++ ROCKET ++
          lit " No news data available[/red]")]) ++
  [Markup (NEWLINE ++ lit "[bold cyan]" ++ BULB ++ lit " KEY INSIGHTS:[/bold cyan]");
   Markup (insights state);
   Markup (NEWLINE ++ replicate 60 61%N)].

(** The six configurations of a run for a subject: what is to run next,
    and the state by then. *)
Definition lifecycle (w : World) (subject : pystr) : list (list pystr * IntelState) :=
  let s0 := initial_state subject in
  let s1 := with_target_urls
              [careers_url w subject; blog_url w subject;
               lit "https://www." ++ lower w subject ++ lit ".com/changelog"] s0 in
  let s2 := with_job_data
              (or_nothing (jobs_in w) (fetched w (careers_url w subject))) s1 in
  let s3 := with_news_data
              (or_nothing news_in (fetched w (blog_url w subject))) s2 in
  let s4 := with_insights
              (if decide (job_data s3 = [] ∧ news_data s3 = [])
               then lit "No data available for analysis"
               else lit "Basic scraping completed - limited insights available without MCP")
              s3 in
  [([lit "planner"], s0); ([lit "jobs"], s1); ([lit "news"], s2);
   ([lit "insight_gen"], s3); ([lit "dashboard"], s4); ([END], s4)].

Arguments find_all : simpl never.
Arguments lit : simpl never.
Arguments keep_title : simpl never.

(** Unfolds the monad so that a stage applied to a console reads as a term. *)
Ltac run_stage :=
  unfold mbind, mret, M_bind, M_ret, bind, ret, try_except, lift, raise,
    http_get, console_print.

(** * Properties *)

(** ** The definitions on small inputs *)

Example careers_url_acme :
  careers_url offline (lit "Acme") = lit "https://www.acme.com/careers".
Proof. reflexivity. Qed.

Example job_class_cases :
  job_class offline None = false ∧
  job_class offline (Some []) = false ∧
  job_class offline (Some (lit "Job-Listing")) = true ∧
  job_class offline (Some (lit "open-positions")) = true ∧
  job_class offline (Some (lit "nav")) = false.
Proof. repeat split. Qed.

Example attr_matches_any_value :
  attr_matches (job_class offline) (Some [lit "card"; lit "job"]) = true ∧
  attr_matches (job_class offline) (Some [lit "jo"; lit "b"]) = false ∧
  attr_matches (job_class offline) None = false.
Proof. repeat split. Qed.

Example find_all_keeps_document_order :
  find_all [lit "div"; lit "li"] (Some (job_class offline)) None
    (mkElement (lit "h1") None (lit "Careers at Acme") :: heading_then_postings)
  = heading_then_postings.
Proof. reflexivity. Qed.

Example keep_title_cuts_and_filters :
  foldl (keep_title (lit "blog")) []
    [mkElement (lit "h1") None (lit "Ten chars.");
     mkElement (lit "h2") None (replicate 120 97%N)]
  = [mkItem (replicate 100 97%N) (lit "blog")].
Proof. reflexivity. Qed.

(** The run for Acme with both fetches failing. *)
Example offline_run_acme :
  ∃ out,
    run offline (lit "Acme") no_io =
    (Ok (mkState (lit "Acme")
           [lit "https://www.acme.com/careers"; lit "https://www.acme.com/blog";
            lit "https://www.acme.com/changelog"]
           [] [] (lit "No data available for analysis") false),
     mkIO out [lit "https://www.acme.com/careers"; lit "https://www.acme.com/blog"]).
Proof. eexists. vm_compute. reflexivity. Qed.

(** ** The extraction loop *)

Lemma keep_title_unfold src acc e :
  keep_title src acc e =
  if decide (long_enough e) then acc ++ [entry src e] else acc.
Proof.
  unfold keep_title, long_enough, entry.
  rewrite bool_decide_decide.
  destruct (decide (10 < length (get_text e))) as [Hlen|Hlen].
  - destruct (get_text e); [simpl in Hlen; lia | done].
  - by rewrite andb_false_r.
Qed.

Lemma foldl_keep_title src els acc :
  foldl (keep_title src) acc els =
  acc ++ (entry src <$> filter long_enough els).
Proof.
  revert acc. induction els as [|e els IH]; intros acc; simpl.
  - by rewrite app_nil_r.
  - rewrite IH, keep_title_unfold, filter_cons.
    case_decide; [|done].
    by rewrite fmap_cons, <- app_assoc.
Qed.

Lemma kept_titles src els :
  foldl (keep_title src) [] els = entry src <$> filter long_enough els.
Proof. by rewrite foldl_keep_title. Qed.

Lemma kept_length src els :
  length (foldl (keep_title src) [] els) ≤ length els.
Proof. rewrite kept_titles, length_fmap. apply length_filter. Qed.

Lemma kept_origin src els (it : item) :
  it ∈ foldl (keep_title src) [] els ->
  ∃ e, e ∈ els ∧ long_enough e ∧ it = entry src e.
Proof.
  rewrite kept_titles. intros [e [-> He]]%list_elem_of_fmap.
  apply list_elem_of_filter in He as [? ?]. eauto.
Qed.

Lemma entry_title_length src e : length (title (entry src e)) ≤ 100.
Proof. simpl. rewrite length_take. lia. Qed.

(** ** What [find_all] returns for the two searches of the program *)

Lemma find_all_jobs w (doc : soup) :
  find_all [lit "div"; lit "li"] (Some (job_class w)) None doc =
  List.filter (job_like w) doc.
Proof. reflexivity. Qed.

Lemma find_all_headings (doc : soup) :
  find_all [lit "h1"; lit "h2"; lit "h3"] None (Some 3) doc =
  take 3 (List.filter heading doc).
Proof.
  unfold find_all, heading. f_equal.
  induction doc as [|e doc IH]; simpl; [done|].
  rewrite andb_true_r. by rewrite IH.
Qed.

Lemma list_filter_elem_of {A} (f : A -> bool) (l : list A) (x : A) :
  x ∈ List.filter f l -> x ∈ l ∧ f x = true.
Proof. rewrite list_elem_of_In, List.filter_In, <- list_elem_of_In. tauto. Qed.

Lemma take_elem_of {A} (n : nat) (l : list A) (x : A) :
  x ∈ take n l -> x ∈ l.
Proof. apply subseteq_take. Qed.

(** ** What the console accepts *)

Lemma without_prefix_app (p s : pystr) : without_prefix p (p ++ s) = Some s.
Proof.
  induction p as [|a p IH]; simpl; [by destruct s|].
  by rewrite decide_True.
Qed.

Lemma without_suffix_app (q s : pystr) : without_suffix q (s ++ q) = Some s.
Proof.
  unfold without_suffix. rewrite reverse_app, without_prefix_app. simpl.
  by rewrite reverse_involutive.
Qed.

Lemma harmless_tagged (style text : pystr) :
  style ∈ styles ->
  forallb plain_char text = true ->
  harmless (tagged style text) = true.
Proof.
  intros Hstyle Htext. unfold harmless. apply existsb_exists.
  exists style. split; [by apply list_elem_of_In|].
  unfold tagged.
  replace (lit "[" ++ style ++ lit "]" ++ text ++ lit "[/" ++ style ++ lit "]")
    with ((lit "[" ++ style ++ lit "]") ++ text ++ (lit "[/" ++ style ++ lit "]"))
    by (by rewrite <- !app_assoc).
  by rewrite without_prefix_app, without_suffix_app.
Qed.

(** The decimal digits of a number are plain characters. *)
Lemma pretty_N_go_plain (x : N) (s : string) :
  forallb plain_char (lit s) = true ->
  forallb plain_char (lit (pretty_N_go x s)) = true.
Proof.
  revert s. induction (N.lt_wf_0 x) as [x _ IH]; intros s Hs.
  destruct (decide (x = 0)%N) as [->|Hx]; [by rewrite pretty_N_go_0|].
  rewrite pretty_N_go_step by lia. apply IH; [apply N.div_lt; lia|].
  unfold lit in *. cbn [list_ascii_of_string fmap list_fmap forallb].
  rewrite Hs, andb_true_r.
  assert (Hd : (x `mod` 10 < 10)%N) by (apply N.mod_lt; lia).
  destruct (x `mod` 10)%N as [|d]; [reflexivity|].
  do 4 (destruct d as [d|d|]; try reflexivity; try lia).
Qed.

Lemma str_of_nat_plain (n : nat) : forallb plain_char (str_of_nat n) = true.
Proof.
  unfold str_of_nat, pretty, pretty_nat, pretty, pretty_N.
  case_decide; [reflexivity|]. by apply pretty_N_go_plain.
Qed.

(** The two count lines and the line of the insight stage are harmless:
    the console renders them in every world. *)
Lemma console_accepts_count w (n : nat) (what : pystr) :
  what ∈ [lit " job listings"; lit " news items"] ->
  console w (Markup (lit "[green]" ++ CHECK_MARK ++ lit " Found " ++
                     str_of_nat n ++ what ++ lit "[/green]")) = Ok tt.
Proof.
  intros Hwhat. unfold console.
  change (lit "[green]" ++ CHECK_MARK ++ lit " Found " ++ str_of_nat n ++
          what ++ lit "[/green]")
    with (lit "[" ++ lit "green" ++ lit "]" ++ CHECK_MARK ++ lit " Found " ++
          str_of_nat n ++ what ++ lit "[/" ++ lit "green" ++ lit "]").
  replace (lit "[" ++ lit "green" ++ lit "]" ++ CHECK_MARK ++ lit " Found " ++
           str_of_nat n ++ what ++ lit "[/" ++ lit "green" ++ lit "]")
    with (tagged (lit "green")
            (CHECK_MARK ++ lit " Found " ++ str_of_nat n ++ what))
    by (unfold tagged; by rewrite <- !app_assoc).
  rewrite harmless_tagged; [done|by vm_compute; repeat constructor|].
  rewrite !forallb_app, str_of_nat_plain.
  rewrite !elem_of_cons, elem_of_nil in Hwhat.
  by destruct Hwhat as [->|[->|[]]].
Qed.

Lemma console_accepts_insight_line w :
  console w (Markup (lit "[yellow]" ++ BRAIN ++
                     lit " Generating insights...[/yellow]")) = Ok tt.
Proof.
  unfold console.
  change (lit "[yellow]" ++ BRAIN ++ lit " Generating insights...[/yellow]")
    with (tagged (lit "yellow") (BRAIN ++ lit " Generating insights...")).
  rewrite harmless_tagged; [done|by vm_compute; repeat constructor|reflexivity].
Qed.

(** ** Reasoning about a computation and its console writes *)

Lemma ucr_ret {A} w (a : A) io (post : A -> IO -> Prop) :
  post a io -> unless_console_raises w (mret a) io post.
Proof. intros H. exact H. Qed.

Lemma ucr_bind {A B} w (m : M A) (k : A -> M B) io
    (mid : A -> IO -> Prop) (post : B -> IO -> Prop) :
  unless_console_raises w m io mid ->
  (∀ a io1, mid a io1 -> unless_console_raises w (k a) io1 post) ->
  unless_console_raises w (m ≫= k) io post.
Proof.
  unfold unless_console_raises, mbind, M_bind, bind.
  destruct (m io) as [[a|e] io1]; intros Hm Hk; [by apply Hk | exact Hm].
Qed.

Lemma ucr_impl {A} w (m : M A) io (post post' : A -> IO -> Prop) :
  unless_console_raises w m io post ->
  (∀ a io', post a io' -> post' a io') ->
  unless_console_raises w m io post'.
Proof.
  unfold unless_console_raises.
  destruct (m io) as [[a|e] io1]; intros Hm H; [by apply H | exact Hm].
Qed.

Lemma ucr_Ok {A} w (m : M A) io (post : A -> IO -> Prop) a io' :
  unless_console_raises w m io post -> m io = (Ok a, io') -> post a io'.
Proof. unfold unless_console_raises. intros H Hm. by rewrite Hm in H. Qed.

(** With a console that renders whatever it is given, [m] returns. *)
Lemma returns_when_console_accepts {A} w (m : M A) io (post : A -> IO -> Prop) :
  (∀ r, console w r = Ok tt) ->
  unless_console_raises w m io post ->
  ∃ a io', m io = (Ok a, io') ∧ post a io'.
Proof.
  unfold unless_console_raises. intros Hall H.
  destruct (m io) as [[a|e] io']; [by exists a, io'|].
  destruct H as [r Hr]. by rewrite Hall in Hr.
Qed.

Lemma ucr_and {A} w (m : M A) io (post post' : A -> IO -> Prop) :
  unless_console_raises w m io post ->
  unless_console_raises w m io post' ->
  unless_console_raises w m io (fun a io' => post a io' ∧ post' a io').
Proof.
  unfold unless_console_raises.
  destruct (m io) as [[a|e] io1]; intros H H'; [by split | exact H].
Qed.

Lemma bind_Ok_inv {A B} (m : M A) (k : A -> M B) io b io' :
  (m ≫= k) io = (Ok b, io') ->
  ∃ a io1, m io = (Ok a, io1) ∧ k a io1 = (Ok b, io').
Proof.
  unfold mbind, M_bind, bind.
  destruct (m io) as [[a|e] io1]; [by exists a, io1 | discriminate].
Qed.

Lemma writes_ret {A} w (a : A) : writes w (mret a) a [].
Proof.
  intros [out req]. cbn. split; [done|]. split; [constructor|].
  by rewrite app_nil_r.
Qed.

Lemma writes_console w r : writes w (console_print w r) tt [r].
Proof.
  intros io. unfold console_print.
  destruct (console w r) as [[]|e] eqn:Hr.
  - split; [done|]. split; [by repeat constructor | done].
  - exists [], r. rewrite app_nil_r. repeat split; [done|exact Hr|constructor|].
    by destruct io.
Qed.

Lemma writes_bind {A B} w (m : M A) (k : A -> M B) a b out1 out2 :
  writes w m a out1 -> writes w (k a) b out2 ->
  writes w (m ≫= k) b (out1 ++ out2).
Proof.
  intros Hm Hk io. specialize (Hm io). unfold mbind, M_bind, bind.
  destruct (m io) as [[a'|e] io1].
  - destruct Hm as (-> & Hok1 & ->).
    specialize (Hk (mkIO (stdout io ++ out1) (requested io))).
    destruct (k a _) as [[b'|e] io2].
    + destruct Hk as (-> & Hok2 & ->). cbn [stdout requested].
      split; [done|]. split; [by apply Forall_app|].
      by rewrite app_assoc.
    + destruct Hk as (before & r & Hpre & Hr & Hok & ->).
      cbn [stdout requested] in *.
      exists (out1 ++ before), r. split; [|split; [exact Hr|split]].
      * rewrite <- app_assoc. by apply prefix_app.
      * by apply Forall_app.
      * by rewrite app_assoc.
  - destruct Hm as (before & r & Hpre & Hr & Hok & ->).
    exists before, r. split; [|done].
    by apply prefix_app_r.
Qed.

Lemma writes_ucr {A} w (m : M A) a out io :
  writes w m a out ->
  unless_console_raises w m io
    (fun a' io' => a' = a ∧ io' = mkIO (stdout io ++ out) (requested io)).
Proof.
  intros H. specialize (H io). unfold unless_console_raises.
  destruct (m io) as [[a'|e] io1].
  - by destruct H as (-> & _ & ->).
  - destruct H as (_ & r & _ & Hr & _). by exists r.
Qed.

(** ** One equation per stage *)

Lemma intelligence_planner_run w state io :
  intelligence_planner w state io =
  match console w (Markup (lit "[blue]" ++ DART ++
          lit " Planning intelligence gathering for " ++ competitor state ++
          lit "[/blue]")) with
  | Raise e => (Raise e, io)
  | Ok _ =>
      (Ok (with_target_urls
             [careers_url w (competitor state);
              blog_url w (competitor state);
              lit "https://www." ++ lower w (competitor state) ++ lit ".com/changelog"]
             state),
       mkIO (stdout io ++
               [Markup (lit "[blue]" ++ DART ++
                  lit " Planning intelligence gathering for " ++ competitor state ++
                  lit "[/blue]")])
            (requested io))
  end.
Proof.
  unfold intelligence_planner. run_stage.
  by destruct (console w _).
Qed.

Lemma job_scout_run w state io :
  job_scout w state io =
  match console w (Markup (lit "[yellow]" ++ MAGNIFIER ++
          lit " Scouting jobs for " ++ competitor state ++ lit "...[/yellow]")) with
  | Raise e => (Raise e, io)
  | Ok _ =>
      let said := stdout io ++
        [Markup (lit "[yellow]" ++ MAGNIFIER ++ lit " Scouting jobs for " ++
           competitor state ++ lit "...[/yellow]")] in
      let asked := requested io ++ [careers_url w (competitor state)] in
      match fetched w (careers_url w (competitor state)) with
      | Ok doc =>
          (Ok (with_job_data (jobs_in w doc) state),
           mkIO (said ++
                   [Markup (lit "[green]" ++ CHECK_MARK ++ lit " Found " ++
                      str_of_nat (length (jobs_in w doc)) ++
                      lit " job listings[/green]")])
                asked)
      | Raise e =>
          match console w (Markup (lit "[red]" ++ CROSS_MARK ++
                  lit " Job scraping failed: " ++ str_exn e ++ lit "[/red]")) with
          | Ok _ =>
              (Ok (with_job_data [] state),
               mkIO (said ++
                       [Markup (lit "[red]" ++ CROSS_MARK ++
                          lit " Job scraping failed: " ++ str_exn e ++ lit "[/red]")])
                    asked)
          | Raise e' => (Raise e', mkIO said asked)
          end
      end
  end.
Proof.
  unfold job_scout, fetched, careers_url. run_stage.
  destruct (console w (Markup (lit "[yellow]" ++ _))) as [[]|e0]; [|done].
  cbn [stdout requested].
  destruct (requests_get w _ headers 10) as [response|e]; cbn [stdout requested].
  - destruct (BeautifulSoup w (content response)) as [doc|e];
      cbn [stdout requested].
    + change (lit " job listings[/green]")
        with (lit " job listings" ++ lit "[/green]").
      rewrite console_accepts_count by (rewrite elem_of_cons; by left).
      reflexivity.
    + by destruct (console w (Markup (lit "[red]" ++ _))) as [[]|e'].
  - by destruct (console w (Markup (lit "[red]" ++ _))) as [[]|e'].
Qed.

Lemma news_hunter_run w state io :
  news_hunter w state io =
  match console w (Markup (lit "[yellow]" ++ NEWSPAPER ++
          lit " Hunting news for " ++ competitor state ++ lit "...[/yellow]")) with
  | Raise e => (Raise e, io)
  | Ok _ =>
      let said := stdout io ++
        [Markup (lit "[yellow]" ++ NEWSPAPER ++ lit " Hunting news for " ++
           competitor state ++ lit "...[/yellow]")] in
      let asked := requested io ++ [blog_url w (competitor state)] in
      match fetched w (blog_url w (competitor state)) with
      | Ok doc =>
          (Ok (with_news_data (news_in doc) state),
           mkIO (said ++
                   [Markup (lit "[green]" ++ CHECK_MARK ++ lit " Found " ++
                      str_of_nat (length (news_in doc)) ++
                      lit " news items[/green]")])
                asked)
      | Raise e =>
          match console w (Markup (lit "[red]" ++ CROSS_MARK ++
                  lit " News scraping failed: " ++ str_exn e ++ lit "[/red]")) with
          | Ok _ =>
              (Ok (with_news_data [] state),
               mkIO (said ++
                       [Markup (lit "[red]" ++ CROSS_MARK ++
                          lit " News scraping failed: " ++ str_exn e ++ lit "[/red]")])
                    asked)
          | Raise e' => (Raise e', mkIO said asked)
          end
      end
  end.
Proof.
  unfold news_hunter, fetched, blog_url. run_stage.
  destruct (console w (Markup (lit "[yellow]" ++ _))) as [[]|e0]; [|done].
  cbn [stdout requested].
  destruct (requests_get w _ headers 10) as [response|e]; cbn [stdout requested].
  - destruct (BeautifulSoup w (content response)) as [doc|e];
      cbn [stdout requested].
    + rewrite find_all_headings.
      change (lit " news items[/green]")
        with (lit " news items" ++ lit "[/green]").
      rewrite console_accepts_count
        by (rewrite !elem_of_cons; right; by left).
      reflexivity.
    + by destruct (console w (Markup (lit "[red]" ++ _))) as [[]|e'].
  - by destruct (console w (Markup (lit "[red]" ++ _))) as [[]|e'].
Qed.

Lemma insight_generator_run w state io :
  insight_generator w state io =
  (Ok (with_insights
         (if decide (job_data state = [] ∧ news_data state = [])
          then lit "No data available for analysis"
          else lit "Basic scraping completed - limited insights available without MCP")
         state),
   mkIO (stdout io ++
           [Markup (lit "[yellow]" ++ BRAIN ++ lit " Generating insights...[/yellow]")])
        (requested io)).
Proof.
  unfold insight_generator. run_stage. rewrite console_accepts_insight_line.
  destruct (decide (job_data state = [] ∧ news_data state = [])) as [[Hj Hn]|H].
  - by rewrite Hj, Hn.
  - destruct (job_data state), (news_data state); simpl; try done.
    by destruct H.
Qed.

Lemma print_titles_writes w entries :
  writes w (print_titles w entries) tt (bullets entries).
Proof.
  unfold print_titles.
  assert (H : ∀ (m : M unit) out,
    writes w m tt out ->
    writes w (foldl (fun m entry =>
                 m;; console_print w (Markup (BULLET ++ lit " " ++ title entry)))
               m entries) tt (out ++ bullets entries)).
  { unfold bullets.
    induction entries as [|it entries IH]; intros m out Hm.
    - cbn [foldl fmap list_fmap]. by rewrite app_nil_r.
    - cbn [foldl]. rewrite fmap_cons.
      match goal with |- writes _ _ _ (out ++ ?x :: ?rest) =>
        replace (out ++ x :: rest) with ((out ++ [x]) ++ rest)
          by (by rewrite <- app_assoc) end.
      exact (IH _ _ (writes_bind w m _ tt tt out [_] Hm (writes_console w _))). }
  apply (H _ []), writes_ret.
Qed.

Lemma dashboard_builder_writes w state :
  writes w (dashboard_builder w state) state (report w state).
Proof.
  unfold dashboard_builder, report.
  apply (writes_bind _ _ _ tt _ [_]); [apply writes_console|].
  apply (writes_bind _ _ _ tt).
  { destruct (truthy (job_data state)); [|apply writes_console].
    apply (writes_bind _ _ _ tt _ [_]);
      [apply writes_console | apply print_titles_writes]. }
  apply (writes_bind _ _ _ tt).
  { destruct (truthy (news_data state)); [|apply writes_console].
    apply (writes_bind _ _ _ tt _ [_]);
      [apply writes_console | apply print_titles_writes]. }
  apply (writes_bind _ _ _ tt _ [_] [_; _]); [apply writes_console|].
  apply (writes_bind _ _ _ tt _ [_] [_]); [apply writes_console|].
  apply (writes_bind _ _ _ tt _ [_] []); [apply writes_console|].
  apply writes_ret.
Qed.

(** ** What a stage leaves when it returns *)

Lemma intelligence_planner_spec w state io :
  unless_console_raises w (intelligence_planner w state) io (fun state' io' =>
    state' = with_target_urls
               [careers_url w (competitor state); blog_url w (competitor state);
                lit "https://www." ++ lower w (competitor state) ++
                lit ".com/changelog"] state ∧
    ∃ out, io' = mkIO (stdout io ++ out) (requested io)).
Proof.
  unfold unless_console_raises. rewrite intelligence_planner_run.
  destruct (console w _) as [[]|e] eqn:Hr; [|by eexists].
  split; [done | by eexists].
Qed.

Lemma job_scout_spec w state io :
  unless_console_raises w (job_scout w state) io (fun state' io' =>
    state' = with_job_data
               (or_nothing (jobs_in w) (fetched w (careers_url w (competitor state))))
               state ∧
    ∃ out, io' = mkIO (stdout io ++ out)
                      (requested io ++ [careers_url w (competitor state)])).
Proof.
  unfold unless_console_raises. rewrite job_scout_run.
  destruct (console w (Markup (lit "[yellow]" ++ _))) as [[]|e0] eqn:H0;
    [|by eexists].
  cbv zeta.
  destruct (fetched w _) as [doc|e].
  - split; [done|]. eexists. by rewrite <- app_assoc.
  - destruct (console w (Markup (lit "[red]" ++ _))) as [[]|e'] eqn:H1;
      [|by eexists].
    split; [done|]. eexists. by rewrite <- app_assoc.
Qed.

Lemma news_hunter_spec w state io :
  unless_console_raises w (news_hunter w state) io (fun state' io' =>
    state' = with_news_data
               (or_nothing news_in (fetched w (blog_url w (competitor state))))
               state ∧
    ∃ out, io' = mkIO (stdout io ++ out)
                      (requested io ++ [blog_url w (competitor state)])).
Proof.
  unfold unless_console_raises. rewrite news_hunter_run.
  destruct (console w (Markup (lit "[yellow]" ++ _))) as [[]|e0] eqn:H0;
    [|by eexists].
  cbv zeta.
  destruct (fetched w _) as [doc|e].
  - split; [done|]. eexists. by rewrite <- app_assoc.
  - destruct (console w (Markup (lit "[red]" ++ _))) as [[]|e'] eqn:H1;
      [|by eexists].
    split; [done|]. eexists. by rewrite <- app_assoc.
Qed.

Lemma insight_generator_spec w state io :
  unless_console_raises w (insight_generator w state) io (fun state' io' =>
    state' = with_insights
               (if decide (job_data state = [] ∧ news_data state = [])
                then lit "No data available for analysis"
                else lit "Basic scraping completed - limited insights available without MCP")
               state ∧
    ∃ out, io' = mkIO (stdout io ++ out) (requested io)).
Proof.
  unfold unless_console_raises. rewrite insight_generator_run.
  split; [done | by eexists].
Qed.

Lemma dashboard_builder_spec w state io :
  unless_console_raises w (dashboard_builder w state) io (fun state' io' =>
    state' = state ∧
    io' = mkIO (stdout io ++ report w state) (requested io)).
Proof. apply writes_ucr, dashboard_builder_writes. Qed.

(** ** The compiled workflow *)

(** The edges of the workflow, read off node by node. *)
Lemma workflow_successors w :
  successors (create_workflow w) START = [lit "planner"] ∧
  successors (create_workflow w) (lit "planner") = [lit "jobs"] ∧
  successors (create_workflow w) (lit "jobs") = [lit "news"] ∧
  successors (create_workflow w) (lit "news") = [lit "insight_gen"] ∧
  successors (create_workflow w) (lit "insight_gen") = [lit "dashboard"] ∧
  successors (create_workflow w) (lit "dashboard") = [END].
Proof. repeat split; reflexivity. Qed.

(** The stage behind each node name. *)
Lemma workflow_nodes w :
  nodes (create_workflow w) !! lit "planner" = Some (intelligence_planner w) ∧
  nodes (create_workflow w) !! lit "jobs" = Some (job_scout w) ∧
  nodes (create_workflow w) !! lit "news" = Some (news_hunter w) ∧
  nodes (create_workflow w) !! lit "insight_gen" = Some (insight_generator w) ∧
  nodes (create_workflow w) !! lit "dashboard" = Some (dashboard_builder w).
Proof. repeat split; reflexivity. Qed.

(** The supersteps of the executor on the workflow, unrolled. *)
Lemma invoke_unroll w state :
  invoke (create_workflow w) state =
  (s1 ← intelligence_planner w state;
   s2 ← job_scout w s1;
   s3 ← news_hunter w s2;
   s4 ← insight_generator w s3;
   s5 ← dashboard_builder w s4;
   mret s5).
Proof. reflexivity. Qed.

(** ** The run as a whole *)

(** The final state and the effects of a run that returns, in terms of
    what the two pages turn out to be. *)
Lemma run_result w subject io :
  let jobs := or_nothing (jobs_in w) (fetched w (careers_url w subject)) in
  let news := or_nothing news_in (fetched w (blog_url w subject)) in
  unless_console_raises w (run w subject) io (fun final io' =>
    final = mkState subject
              [careers_url w subject; blog_url w subject;
               lit "https://www." ++ lower w subject ++ lit ".com/changelog"]
              jobs news
              (if decide (jobs = [] ∧ news = [])
               then lit "No data available for analysis"
               else lit "Basic scraping completed - limited insights available without MCP")
              false ∧
    ∃ out, io' = mkIO (stdout io ++ out ++ report w final)
                      (requested io ++ [careers_url w subject; blog_url w subject])).
Proof.
  intros jobs news. unfold run. rewrite invoke_unroll.
  eapply ucr_bind; [apply intelligence_planner_spec|].
  intros s1 io1 (-> & out1 & ->).
  eapply ucr_bind; [apply job_scout_spec|].
  intros s2 io2 (-> & out2 & ->).
  eapply ucr_bind; [apply news_hunter_spec|].
  intros s3 io3 (-> & out3 & ->).
  eapply ucr_bind; [apply insight_generator_spec|].
  intros s4 io4 (-> & out4 & ->).
  eapply ucr_bind; [apply dashboard_builder_spec|].
  intros s5 io5 (-> & ->). apply ucr_ret.
  split; [reflexivity|].
  cbn [stdout requested].
  exists (out1 ++ out2 ++ out3 ++ out4).
  f_equal; rewrite <- ?app_assoc; reflexivity.
Qed.


(** ** The claims about single stages *)

(** C3, as the code has it: when the planning stage returns,
    [target_urls] is exactly three URLs, the careers, blog and changelog
    pages, each the fixed template around the lower-cased subject, a
    function of the subject alone; no other field is changed and nothing
    is requested.  The stage has one way to fail: it first prints the
    subject as markup, and when the console rejects that line the stage
    raises what the console raised and returns no targets. *)
Theorem planner_targets w state io :
  let site page :=
    lit "https://www." ++ lower w (competitor state) ++ lit ".com/" ++ page in
  match console w (Markup (lit "[blue]" ++ DART ++
          lit " Planning intelligence gathering for " ++ competitor state ++
          lit "[/blue]")) with
  | Ok _ =>
      ∃ state' io',
        intelligence_planner w state io = (Ok state', io') ∧
        target_urls state' =
          [site (lit "careers"); site (lit "blog"); site (lit "changelog")] ∧
        length (target_urls state') = 3 ∧
        state' = with_target_urls (target_urls state') state ∧
        requested io' = requested io
  | Raise e => intelligence_planner w state io = (Raise e, io)
  end.
Proof.
  intros site. rewrite intelligence_planner_run.
  destruct (console w _) as [[]|e]; [|reflexivity].
  eexists _, _. split; [reflexivity|]. repeat split.
Qed.

(** C3 as stated fails: the planning stage has a failure mode.  For the
    subject [x[/blue]y] it raises on its first line, before targets are
    set. *)
Lemma planner_raises_on_closing_tag :
  intelligence_planner offline (initial_state (lit "x[/blue]y")) no_io
  = (Raise MarkupError, no_io).
Proof. vm_compute. reflexivity. Qed.


(** C10: the URL requested by [job_scout] is the first of the targets the
    planner wrote, and the URL requested by [news_hunter] is the second,
    although both stages build their URL from the subject again and never
    read [target_urls].  This holds whenever the three stages return, and
    they return unless the console rejects one of their lines. *)
Theorem scouts_request_planned_urls w state io :
  unless_console_raises w (intelligence_planner w state) io (fun planned io1 =>
    unless_console_raises w (job_scout w planned) io1 (fun scouted io2 =>
      unless_console_raises w (news_hunter w scouted) io2 (fun hunted io3 =>
        ∃ careers blog,
          target_urls planned !! 0 = Some careers ∧
          requested io2 = requested io1 ++ [careers] ∧
          target_urls planned !! 1 = Some blog ∧
          requested io3 = requested io2 ++ [blog]))).
Proof.
  eapply ucr_impl; [apply intelligence_planner_spec|].
  intros planned io1 (-> & out1 & ->).
  eapply ucr_impl; [apply job_scout_spec|].
  intros scouted io2 (-> & out2 & ->).
  eapply ucr_impl; [apply news_hunter_spec|].
  intros hunted io3 (-> & out3 & ->).
  eexists _, _. repeat split.
Qed.

(** ** The claims about the run *)











(** Where the entries of an extraction come from. *)
Lemma kept_Forall src (kind : element -> bool) (doc : soup) n :
  Forall (fun it =>
    length (title it) ≤ 100 ∧
    ∃ e, e ∈ doc ∧ kind e = true ∧ 10 < length (get_text e) ∧
         it = mkItem (take 100 (get_text e)) src)
    (foldl (keep_title src) [] (take n (List.filter kind doc))).
Proof.
  apply Forall_forall. intros it Hit.
  apply kept_origin in Hit as (el & Hel & Hlong & ->).
  apply take_elem_of, list_filter_elem_of in Hel as [Hel Hkind].
  split; [apply entry_title_length|].
  exists el. repeat split; assumption.
Qed.

Lemma kept_at_most src (kind : element -> bool) (doc : soup) n :
  length (foldl (keep_title src) [] (take n (List.filter kind doc))) ≤ n.
Proof. etrans; [apply kept_length|]. rewrite length_take. lia. Qed.

(** C6: in the final state of every run, [job_data] and [news_data] hold at
    most three entries each; every title is at most 100 characters long; and
    every entry is the cut of the text of a tag of the fetched page, a tag
    the stage looks for, whose text before the cut is longer than 10
    characters.  (Every run that returns: a run returns unless the console
    rejects one of its lines.) *)
Theorem snippets_bounded w subject io :
  unless_console_raises w (run w subject) io (fun final io' =>
    length (job_data final) ≤ 3 ∧
    length (news_data final) ≤ 3 ∧
    Forall (fun it =>
      length (title it) ≤ 100 ∧
      ∃ doc e, fetched w (careers_url w subject) = Ok doc ∧ e ∈ doc ∧
               job_like w e = true ∧ 10 < length (get_text e) ∧
               it = mkItem (take 100 (get_text e)) (lit "careers_page"))
      (job_data final) ∧
    Forall (fun it =>
      length (title it) ≤ 100 ∧
      ∃ doc e, fetched w (blog_url w subject) = Ok doc ∧ e ∈ doc ∧
               heading e = true ∧ 10 < length (get_text e) ∧
               it = mkItem (take 100 (get_text e)) (lit "blog"))
      (news_data final)).
Proof.
  eapply ucr_impl; [apply run_result|].
  intros final io' (-> & _).
  cbn [job_data news_data].
  split; [|split; [|split]].
  - destruct (fetched w (careers_url w subject)) as [doc|e]; cbn [or_nothing].
    + apply kept_at_most.
    + simpl. lia.
  - destruct (fetched w (blog_url w subject)) as [doc|e]; cbn [or_nothing].
    + apply kept_at_most.
    + simpl. lia.
  - destruct (fetched w (careers_url w subject)) as [doc|e]; cbn [or_nothing];
      [|constructor].
    eapply Forall_impl; [apply kept_Forall|].
    intros it (Hlen & el & ?). split; [exact Hlen|]. by exists doc, el.
  - destruct (fetched w (blog_url w subject)) as [doc|e]; cbn [or_nothing];
      [|constructor].
    eapply Forall_impl; [apply kept_Forall|].
    intros it (Hlen & el & ?). split; [exact Hlen|]. by exists doc, el.
Qed.

(** C7: the compiled workflow is the five stages run one after the other
    in the order plan, scout-jobs, scout-news, synthesize-insight, report:
    invoking it is the loop over the list of the five stage functions, on
    every state, and so is the run from the initial state.  The edges lead
    from the entry point through the five nodes in this order to the end,
    and each node is its stage. *)
Theorem workflow_is_stage_sequence w state subject :
  invoke (create_workflow w) state = run_stages (stages w) state ∧
  run w subject = run_stages (stages w) (initial_state subject) ∧
  stages w = [intelligence_planner w; job_scout w; news_hunter w;
              insight_generator w; dashboard_builder w] ∧
  successors (create_workflow w) START = [lit "planner"] ∧
  nodes (create_workflow w) !! lit "planner" = Some (intelligence_planner w) ∧
  successors (create_workflow w) (lit "planner") = [lit "jobs"] ∧
  nodes (create_workflow w) !! lit "jobs" = Some (job_scout w) ∧
  successors (create_workflow w) (lit "jobs") = [lit "news"] ∧
  nodes (create_workflow w) !! lit "news" = Some (news_hunter w) ∧
  successors (create_workflow w) (lit "news") = [lit "insight_gen"] ∧
  nodes (create_workflow w) !! lit "insight_gen" = Some (insight_generator w) ∧
  successors (create_workflow w) (lit "insight_gen") = [lit "dashboard"] ∧
  nodes (create_workflow w) !! lit "dashboard" = Some (dashboard_builder w) ∧
  successors (create_workflow w) (lit "dashboard") = [END].
Proof.
  destruct (workflow_successors w) as (E0 & E1 & E2 & E3 & E4 & E5).
  destruct (workflow_nodes w) as (N1 & N2 & N3 & N4 & N5).
  split; [apply invoke_unroll|].
  split; [unfold run; apply invoke_unroll|].
  split; [reflexivity|].
  repeat split; assumption.
Qed.

(** ** The subject along a run *)

Lemma workflow_node_cases w n f :
  nodes (create_workflow w) !! n = Some f ->
  f = intelligence_planner w ∨ f = job_scout w ∨ f = news_hunter w ∨
  f = insight_generator w ∨ f = dashboard_builder w.
Proof.
  unfold create_workflow, set_entry_point, add_edge, add_node, empty_graph.
  cbn [nodes]. rewrite !lookup_insert_Some, lookup_empty.
  intros [[_ <-]|[_ [[_ <-]|[_ [[_ <-]|[_ [[_ <-]|[_ [[_ <-]|[_ ?]]]]]]]]]];
    auto 6; discriminate.
Qed.

Lemma stage_keeps_competitor w n f state io state' io' :
  nodes (create_workflow w) !! n = Some f ->
  f state io = (Ok state', io') ->
  competitor state' = competitor state.
Proof.
  intros Hn Hf.
  destruct (workflow_node_cases w n f Hn) as [-> | [-> | [-> | [-> | ->]]]].
  - by apply (ucr_Ok _ _ _ _ _ _ (intelligence_planner_spec w state io))
      in Hf as (-> & _).
  - by apply (ucr_Ok _ _ _ _ _ _ (job_scout_spec w state io)) in Hf as (-> & _).
  - by apply (ucr_Ok _ _ _ _ _ _ (news_hunter_spec w state io)) in Hf as (-> & _).
  - by apply (ucr_Ok _ _ _ _ _ _ (insight_generator_spec w state io))
      in Hf as (-> & _).
  - by apply (ucr_Ok _ _ _ _ _ _ (dashboard_builder_spec w state io))
      in Hf as (-> & _).
Qed.

Lemma step_keeps_competitor w c c' :
  step (create_workflow w) c c' ->
  competitor (current c') = competitor (current c).
Proof.
  intros Hstep. inversion Hstep as [act n f state state' io io' _ Hn Hf]; subst.
  simpl. eapply stage_keeps_competitor; eassumption.
Qed.

(** A run that returns has passed through the five supersteps: its final
    state is reached by the transitions of the executor. *)
Lemma run_reachable w subject io final io' :
  run w subject io = (Ok final, io') ->
  reachable w subject io (mkConfig [END] final io').
Proof.
  destruct (workflow_successors w) as (E0 & E1 & E2 & E3 & E4 & E5).
  destruct (workflow_nodes w) as (N1 & N2 & N3 & N4 & N5).
  unfold run. rewrite invoke_unroll. intros Hrun.
  apply bind_Ok_inv in Hrun as (s1 & io1 & H1 & Hrun).
  apply bind_Ok_inv in Hrun as (s2 & io2 & H2 & Hrun).
  apply bind_Ok_inv in Hrun as (s3 & io3 & H3 & Hrun).
  apply bind_Ok_inv in Hrun as (s4 & io4 & H4 & Hrun).
  apply bind_Ok_inv in Hrun as (s5 & io5 & H5 & Hrun).
  injection Hrun as <- <-.
  unfold reachable. rewrite E0.
  eapply rtc_l; [by eapply (step_node _ _ (lit "planner")); [|exact N1|exact H1]|].
  rewrite E1.
  eapply rtc_l; [by eapply (step_node _ _ (lit "jobs")); [|exact N2|exact H2]|].
  rewrite E2.
  eapply rtc_l; [by eapply (step_node _ _ (lit "news")); [|exact N3|exact H3]|].
  rewrite E3.
  eapply rtc_l;
    [by eapply (step_node _ _ (lit "insight_gen")); [|exact N4|exact H4]|].
  rewrite E4.
  eapply rtc_l;
    [by eapply (step_node _ _ (lit "dashboard")); [|exact N5|exact H5]|].
  rewrite E5. apply rtc_refl.
Qed.

(** C9, as the code has it: in every state a run goes through,
    [competitor] is the subject the run was started with, so it is not
    empty when that subject is not. *)
Theorem subject_fixed_along_run w subject io c :
  reachable w subject io c ->
  competitor (current c) = subject ∧
  (subject ≠ [] -> competitor (current c) ≠ []).
Proof.
  unfold reachable. intros Hreach.
  assert (Hsame : competitor (current c) = subject).
  { remember (mkConfig (successors (create_workflow w) START)
                (initial_state subject) io) as c0 eqn:Hc0.
    assert (H0 : competitor (current c0) = subject) by (by subst c0).
    clear Hc0.
    induction Hreach as [c|c c' c'' Hstep _ IH]; [exact H0|].
    apply IH. by rewrite (step_keeps_competitor w c c' Hstep). }
  split; [exact Hsame|]. intros Hne. by rewrite Hsame.
Qed.

(** The state after the planning superstep of an offline run for Acme. *)
Lemma subject_fixed_after_planner :
  ∃ state' io',
    intelligence_planner offline (initial_state (lit "Acme")) no_io = (Ok state', io') ∧
    competitor state' = lit "Acme".
Proof.
  eexists _, _. split; [vm_compute; reflexivity|].
  refine (proj1 (subject_fixed_along_run offline (lit "Acme") no_io
            (mkConfig (successors (create_workflow offline) (lit "planner")) _ _) _)).
  apply rtc_once.
  apply (step_node _ _ (lit "planner") (intelligence_planner offline));
    reflexivity.
Defined.

(** C9 as stated fails: the program takes the empty string for a subject,
    and the run for it goes through to its final state with an empty
    [competitor]. *)
Lemma empty_subject_runs :
  ∃ final io',
    run offline [] no_io = (Ok final, io') ∧
    reachable offline [] no_io (mkConfig [END] final io') ∧
    competitor final = [].
Proof.
  destruct (run offline [] no_io) as [[final|e] io'] eqn:Hrun;
    [|vm_compute in Hrun; discriminate].
  exists final, io'. split; [reflexivity|].
  split; [by apply run_reachable|].
  vm_compute in Hrun. by injection Hrun as <- _.
Qed.

(** ** The Acme scenario *)

(** C8, as the code has it: for the subject Acme, when the careers fetch
    succeeds and the first three job-like tags of the page, in document
    order, each have a text longer than 10 characters, [job_data] has
    exactly 3 entries, the cuts of these three texts, each of at most 100
    characters and from [careers_page].  The stage takes the first three
    job-like tags before it looks at their texts.  (The run returns
    unless the console rejects one of its lines.) *)
Theorem acme_three_postings w io response doc e1 e2 e3 :
  requests_get w (careers_url w (lit "Acme")) headers 10 = Ok response ->
  BeautifulSoup w (content response) = Ok doc ->
  take 3 (List.filter (job_like w) doc) = [e1; e2; e3] ->
  10 < length (get_text e1) ->
  10 < length (get_text e2) ->
  10 < length (get_text e3) ->
  unless_console_raises w (run w (lit "Acme")) io (fun final io' =>
    job_data final =
      [mkItem (take 100 (get_text e1)) (lit "careers_page");
       mkItem (take 100 (get_text e2)) (lit "careers_page");
       mkItem (take 100 (get_text e3)) (lit "careers_page")] ∧
    length (job_data final) = 3 ∧
    Forall (fun it => length (title it) ≤ 100 ∧ source it = lit "careers_page")
           (job_data final)).
Proof.
  intros Hget Hparse Hfirst H1 H2 H3.
  eapply ucr_impl; [apply run_result|].
  intros final io' (-> & _). cbn [job_data].
  assert (Hjobs : or_nothing (jobs_in w) (fetched w (careers_url w (lit "Acme")))
                  = [entry (lit "careers_page") e1; entry (lit "careers_page") e2;
                     entry (lit "careers_page") e3]).
  { unfold fetched. rewrite Hget, Hparse. cbn [or_nothing]. unfold jobs_in.
    rewrite Hfirst, kept_titles.
    rewrite !filter_cons, filter_nil.
    by rewrite !decide_True by assumption. }
  rewrite Hjobs. split; [reflexivity|]. split; [reflexivity|].
  repeat (apply Forall_cons; split;
          [split; [apply entry_title_length | reflexivity]|]).
  apply Forall_nil_2.
Qed.

(** A careers page of Acme with three postings gives three entries. *)
Lemma acme_three_postings_page :
  ∃ final io',
    run (acme_careers three_postings) (lit "Acme") no_io = (Ok final, io') ∧
    length (job_data final) = 3.
Proof.
  pose proof (acme_three_postings (acme_careers three_postings) no_io
                (mkResponse 200 page_bytes) three_postings
                (mkElement (lit "li") (Some [lit "job"])
                   (lit "Senior Software Engineer"))
                (mkElement (lit "li") (Some [lit "job"; lit "featured"])
                   (lit "Staff Data Scientist"))
                (mkElement (lit "div") (Some [lit "open-position"])
                   (lit "Principal Product Designer"))
                eq_refl eq_refl eq_refl) as Hthree.
  destruct (run (acme_careers three_postings) (lit "Acme") no_io)
    as [[final|e] io'] eqn:Hrun; [|vm_compute in Hrun; discriminate].
  exists final, io'. split; [reflexivity|].
  refine (proj1 (proj2 (ucr_Ok _ _ _ _ _ _ (Hthree _ _ _) Hrun)));
    vm_compute; lia.
Defined.

(** C8 as stated fails: the careers page of Acme is fetched and holds three
    job-like tags with a text longer than 10 characters, after a job-like
    tag with a short text; [job_data] has 2 entries, not 3. *)
Lemma acme_short_tag_first :
  ∃ response final io',
    requests_get (acme_careers heading_then_postings)
      (careers_url (acme_careers heading_then_postings) (lit "Acme")) headers 10
      = Ok response ∧
    BeautifulSoup (acme_careers heading_then_postings) (content response)
      = Ok heading_then_postings ∧
    length (filter (fun e =>
              job_like (acme_careers heading_then_postings) e = true ∧
              10 < length (get_text e)) heading_then_postings) = 3 ∧
    run (acme_careers heading_then_postings) (lit "Acme") no_io = (Ok final, io') ∧
    length (job_data final) = 2.
Proof.
  eexists _, _, _.
  split; [reflexivity|]. split; [reflexivity|]. split; [reflexivity|].
  split; [vm_compute; reflexivity|]. reflexivity.
Qed.

(** * Further properties of the program *)

(** ** The extraction loops (lines 62-68 and 98-104) *)

Lemma list_filter_sublist {A} (f : A -> bool) (l : list A) :
  List.filter f l `sublist_of` l.
Proof.
  induction l as [|x l IH]; simpl; [constructor|].
  destruct (f x); by constructor.
Qed.

Lemma list_filter_app_take {A} (f : A -> bool) (l more : list A) n :
  n ≤ length (List.filter f l) ->
  take n (List.filter f (l ++ more)) = take n (List.filter f l).
Proof. intros Hn. rewrite List.filter_app. by apply take_app_le. Qed.

(** X1: a kept title is between 11 and 100 characters long and is the
    beginning of the text of one of the tags: the whole text when that has
    at most 100 characters, its first 100 otherwise. *)
Theorem kept_title_shape src (els : list element) (it : item) :
  it ∈ foldl (keep_title src) [] els ->
  10 < length (title it) ∧ length (title it) ≤ 100 ∧ source it = src ∧
  ∃ e, e ∈ els ∧ title it `prefix_of` get_text e ∧
       (length (get_text e) ≤ 100 -> title it = get_text e) ∧
       (100 < length (get_text e) -> length (title it) = 100).
Proof.
  intros (e & He & Hlong & ->)%kept_origin. unfold long_enough in Hlong.
  cbn [title source entry]. rewrite length_take.
  split; [lia|]. split; [lia|]. split; [reflexivity|].
  exists e. split; [exact He|]. split; [apply prefix_take|].
  split; [intros Hle; by apply take_ge | lia].
Qed.

Lemma kept_title_shape_two_tags :
  10 < length (title (mkItem (replicate 100 97%N) (lit "blog"))) ∧
  length (title (mkItem (replicate 100 97%N) (lit "blog"))) ≤ 100.
Proof.
  destruct (kept_title_shape (lit "blog")
              [mkElement (lit "h1") None (lit "Ten chars.");
               mkElement (lit "h2") None (replicate 120 97%N)]
              (mkItem (replicate 100 97%N) (lit "blog")))
    as (Hlo & Hhi & _).
  - vm_compute. apply list_elem_of_here.
  - split; assumption.
Defined.

(** X2: the entries keep the order of the document: the titles of what
    [job_scout] extracts from a page are a subsequence of the cut texts of
    the page's tags, and so are those of [news_hunter]. *)
Theorem extraction_keeps_document_order w (doc : soup) :
  title <$> jobs_in w doc `sublist_of` (fun e => take 100 (get_text e)) <$> doc ∧
  title <$> news_in doc `sublist_of` (fun e => take 100 (get_text e)) <$> doc.
Proof.
  assert (H : ∀ src (kind : element -> bool),
    title <$> foldl (keep_title src) [] (take 3 (List.filter kind doc))
      `sublist_of` (fun e => take 100 (get_text e)) <$> doc).
  { intros src kind. rewrite kept_titles, <- list_fmap_compose.
    change (title ∘ entry src) with (fun e => take 100 (get_text e)).
    apply fmap_sublist.
    etrans; [apply sublist_filter|].
    etrans; [apply sublist_take | apply list_filter_sublist]. }
  split; apply H.
Qed.

Lemma fetched_respond_eq w url r :
  fetched (respond w url (Ok r)) url = BeautifulSoup w (content r).
Proof.
  unfold fetched, respond. cbn [requests_get BeautifulSoup].
  by rewrite decide_True.
Qed.

(** X3: what a scout does depends on the page it fetched only through the
    first three tags it looks for, their texts included: on two pages that
    agree on their first three job-like tags, [job_scout] returns the same
    state, with the same lines on the console and the same request,
    whatever else the pages hold; likewise [news_hunter] and the first
    three headings. *)
Theorem first_three_tags_decide w state io (r r' : response) (doc doc' : soup) :
  BeautifulSoup w (content r) = Ok doc ->
  BeautifulSoup w (content r') = Ok doc' ->
  (take 3 (List.filter (job_like w) doc) = take 3 (List.filter (job_like w) doc') ->
   job_scout (respond w (careers_url w (competitor state)) (Ok r)) state io
   = job_scout (respond w (careers_url w (competitor state)) (Ok r')) state io) ∧
  (take 3 (List.filter heading doc) = take 3 (List.filter heading doc') ->
   news_hunter (respond w (blog_url w (competitor state)) (Ok r)) state io
   = news_hunter (respond w (blog_url w (competitor state)) (Ok r')) state io).
Proof.
  intros Hdoc Hdoc'. split; intros Hsame.
  - rewrite !job_scout_run.
    change (careers_url (respond w _ (Ok r)) (competitor state))
      with (careers_url w (competitor state)).
    change (careers_url (respond w _ (Ok r')) (competitor state))
      with (careers_url w (competitor state)).
    rewrite !fetched_respond_eq, Hdoc, Hdoc'.
    change (jobs_in (respond w (careers_url w (competitor state)) (Ok r)) doc)
      with (jobs_in w doc).
    change (jobs_in (respond w (careers_url w (competitor state)) (Ok r')) doc')
      with (jobs_in w doc').
    assert (jobs_in w doc = jobs_in w doc') as ->
      by (unfold jobs_in; by rewrite Hsame).
    reflexivity.
  - rewrite !news_hunter_run.
    change (blog_url (respond w _ (Ok r)) (competitor state))
      with (blog_url w (competitor state)).
    change (blog_url (respond w _ (Ok r')) (competitor state))
      with (blog_url w (competitor state)).
    rewrite !fetched_respond_eq, Hdoc, Hdoc'.
    assert (news_in doc = news_in doc') as ->
      by (unfold news_in; by rewrite Hsame).
    reflexivity.
Qed.

(** A page with a fourth posting after the three: the same outcome. *)
Lemma fourth_posting_changes_nothing :
  job_scout
    (respond two_pages (lit "https://www.acme.com/careers")
       (Ok (mkResponse 200 page_bytes)))
    (initial_state (lit "Acme")) no_io
  = job_scout
      (respond two_pages (lit "https://www.acme.com/careers")
         (Ok (mkResponse 200 other_page_bytes)))
      (initial_state (lit "Acme")) no_io.
Proof.
  apply (first_three_tags_decide two_pages (initial_state (lit "Acme")) no_io
           (mkResponse 200 page_bytes) (mkResponse 200 other_page_bytes)
           three_postings four_postings eq_refl eq_refl).
  reflexivity.
Defined.

(** ** The class filter of [job_scout] (line 60) *)

Lemma startswith_spec needle haystack :
  startswith needle haystack = true ↔ ∃ post, haystack = needle ++ post.
Proof.
  revert haystack. induction needle as [|a needle IH]; intros haystack; simpl.
  - split; [intros _; by exists haystack | done].
  - destruct haystack as [|b haystack].
    + split; [done | intros [post H]; discriminate].
    + case_decide as Hab.
      * subst b. rewrite IH. split; intros [post H]; exists post.
        -- by rewrite H.
        -- by inversion H.
      * split; [done | intros [post H]; by inversion H].
Qed.

Lemma contains_spec needle haystack :
  contains needle haystack = true ↔ ∃ pre post, haystack = pre ++ needle ++ post.
Proof.
  induction haystack as [|b haystack IH]; simpl.
  - rewrite orb_false_r, startswith_spec. split.
    + intros [post H]. by exists [], post.
    + intros (pre & post & H). destruct pre as [|c pre]; [by exists post|].
      discriminate.
  - rewrite orb_true_iff, startswith_spec, IH. split.
    + intros [[post H]|(pre & post & H)].
      * by exists [], post.
      * exists (b :: pre), post. by rewrite H.
    + intros (pre & post & H). destruct pre as [|c pre].
      * left. by exists post.
      * right. exists pre, post. by inversion H.
Qed.

(** X4: the class filter accepts a class value exactly when the value is
    not empty and its lower-cased form has [job] or [position] somewhere
    inside; a tag without a class attribute is never accepted. *)
Theorem job_class_accepts w (x : pystr) :
  job_class w None = false ∧
  (job_class w (Some x) = true ↔
   x ≠ [] ∧
   ∃ pre post, lower w x = pre ++ lit "job" ++ post ∨
               lower w x = pre ++ lit "position" ++ post).
Proof.
  split; [reflexivity|]. unfold job_class.
  rewrite andb_true_iff, orb_true_iff, !contains_spec. split.
  - intros [Hx [(pre & post & H)|(pre & post & H)]];
      (split; [by destruct x|]); exists pre, post; auto.
  - intros [Hx (pre & post & [H|H])]; (split; [by destruct x|]);
      [left | right]; by exists pre, post.
Qed.

(** ** The URLs of a subject (lines 31-35, 51, 87) *)

Lemma site_url_inj (prefix suffix a b : pystr) :
  prefix ++ a ++ suffix = prefix ++ b ++ suffix -> a = b.
Proof. intros H. by apply app_inv_head, app_inv_tail in H. Qed.

(** X5: two subjects are sent to the same careers page, and to the same
    blog page, exactly when their lower-cased forms agree. *)
Theorem same_site_iff_same_lower w (s1 s2 : pystr) :
  (careers_url w s1 = careers_url w s2 ↔ lower w s1 = lower w s2) ∧
  (blog_url w s1 = blog_url w s2 ↔ lower w s1 = lower w s2).
Proof.
  unfold careers_url, blog_url.
  split; (split; [apply site_url_inj | by intros ->]).
Qed.

Lemma targets_NoDup w subject :
  NoDup [careers_url w subject; blog_url w subject;
         lit "https://www." ++ lower w subject ++ lit ".com/changelog"].
Proof.
  assert (Hlen : ∀ (a b : pystr), length a ≠ length b ->
            lit "https://www." ++ lower w subject ++ a
            ≠ lit "https://www." ++ lower w subject ++ b).
  { intros a b Hab H. by apply app_inv_head, app_inv_head in H as ->. }
  unfold careers_url, blog_url.
  repeat constructor; rewrite ?elem_of_cons, ?elem_of_nil;
    intros H; repeat destruct H as [H|H]; try done;
    revert H; apply Hlen; vm_compute; lia.
Qed.

(** X6: the three targets of a run are three different URLs, and the run
    requests the first two of them and never the third: the changelog page
    is planned and not fetched.  (Of every run that returns; a run returns
    unless the console rejects one of its lines.) *)
Theorem changelog_is_never_requested w subject io :
  unless_console_raises w (run w subject) io (fun final io' =>
    ∃ new changelog,
      NoDup (target_urls final) ∧
      requested io' = requested io ++ new ∧
      take 2 (target_urls final) = new ∧
      target_urls final !! 2 = Some changelog ∧
      changelog ∉ new).
Proof.
  eapply ucr_impl; [apply run_result|].
  intros final io' (-> & out & ->). cbn [target_urls requested].
  eexists _, _.
  pose proof (targets_NoDup w subject) as Hnd.
  split; [exact Hnd|]. split; [reflexivity|]. split; [reflexivity|].
  split; [reflexivity|].
  apply NoDup_cons in Hnd as [H1 Hnd]. apply NoDup_cons in Hnd as [H2 _].
  rewrite !elem_of_cons, elem_of_nil in *.
  intros [E|[E|[]]]; [apply H1 | apply H2]; rewrite <- E; auto.
Qed.

(** X7: the subject's case does not matter for what is gathered: two
    subjects with the same lower-cased form get the same targets, the same
    two requests, the same jobs, news and insight; the final states differ
    in [competitor] only.  (Whenever both runs return.) *)
Theorem case_of_subject_is_irrelevant w (s1 s2 : pystr) io :
  lower w s1 = lower w s2 ->
  unless_console_raises w (run w s1) io (fun final1 io1 =>
    unless_console_raises w (run w s2) io (fun final2 io2 =>
      requested io1 = requested io2 ∧
      final2 = mkState s2 (target_urls final1) (job_data final1)
                       (news_data final1) (insights final1) (use_mcp final1))).
Proof.
  intros Hlower.
  eapply ucr_impl; [apply run_result|].
  intros final1 io1 (-> & out1 & ->).
  eapply ucr_impl; [apply run_result|].
  intros final2 io2 (-> & out2 & ->).
  cbn [requested target_urls job_data news_data insights use_mcp].
  unfold careers_url, blog_url. by rewrite Hlower.
Qed.

Lemma acme_in_capitals :
  ∃ final1 io1 final2 io2,
    run (acme_careers three_postings) (lit "ACME") no_io = (Ok final1, io1) ∧
    run (acme_careers three_postings) (lit "Acme") no_io = (Ok final2, io2) ∧
    job_data final2 = job_data final1.
Proof.
  pose proof (case_of_subject_is_irrelevant (acme_careers three_postings)
                (lit "ACME") (lit "Acme") no_io eq_refl) as Hcase.
  destruct (run (acme_careers three_postings) (lit "ACME") no_io)
    as [[f1|e] io1] eqn:H1; [|vm_compute in H1; discriminate].
  destruct (run (acme_careers three_postings) (lit "Acme") no_io)
    as [[f2|e] io2] eqn:H2; [|vm_compute in H2; discriminate].
  exists f1, io1, f2, io2. split; [reflexivity|]. split; [reflexivity|].
  pose proof (ucr_Ok _ _ _ _ _ _ Hcase H1) as Hcase2. cbv beta in Hcase2.
  destruct (ucr_Ok _ _ _ _ _ _ Hcase2 H2) as (_ & ->). reflexivity.
Defined.

(** ** What the stages write (lines 37-40, 76, 112, 119-124, 164) *)


(** X9: the two scouts do not depend on each other: run in either order
    from the same state, they leave the same state behind.  (Whenever both
    orders return.) *)
Theorem scouts_commute w state io :
  unless_console_raises w (job_scout w state) io (fun a ioa =>
    unless_console_raises w (news_hunter w a) ioa (fun jobs_then_news _ =>
      unless_console_raises w (news_hunter w state) io (fun b iob =>
        unless_console_raises w (job_scout w b) iob (fun news_then_jobs _ =>
          jobs_then_news = news_then_jobs)))).
Proof.
  eapply ucr_impl; [apply job_scout_spec|]. intros a ioa (-> & _).
  eapply ucr_impl; [apply news_hunter_spec|]. intros jn io_jn (-> & _).
  eapply ucr_impl; [apply news_hunter_spec|]. intros b iob (-> & _).
  eapply ucr_impl; [apply job_scout_spec|]. intros nj io_nj (-> & _).
  reflexivity.
Qed.

(** ** The report (lines 126-164) and [main] (lines 187-212) *)

(** X10: the report only reads: when it returns it returns the state it
    was given, it requests nothing, and it prints, in this order, the
    table with the two counts, the jobs section, the news section and the
    insight.  A section is its heading and one bullet line per entry, in
    the order of the list, or the single no-data line when the list is
    empty; so the full report is [6 + len(job_data) + len(news_data)]
    console writes long.  The titles are printed as markup: when the
    console rejects a line, the report stops there and raises what the
    console raised, with the lines before that one printed and none
    after it. *)
Theorem dashboard_builder_prints_report w state :
  writes w (dashboard_builder w state) state (report w state) ∧
  length (report w state) = 6 + length (job_data state) + length (news_data state) ∧
  (job_data state = [] ->
   Markup (NEWLINE ++ lit "[red]" ++ BAR_CHART ++ lit " No job data available[/red]")
     ∈ report w state) ∧
  (∀ it, it ∈ job_data state ->
     Markup (BULLET ++ lit " " ++ title it) ∈ report w state) ∧
  (∀ it, it ∈ news_data state ->
     Markup (BULLET ++ lit " " ++ title it) ∈ report w state).
Proof.
  split; [apply dashboard_builder_writes|]. split; [|split; [|split]].
  - unfold report, bullets. rewrite !length_app.
    destruct (job_data state), (news_data state); cbn [truthy];
      cbn [length]; rewrite ?length_fmap; cbn [length]; lia.
  - intros Hj. unfold report. rewrite Hj. cbn [truthy].
    rewrite !elem_of_app, !elem_of_cons. auto.
  - intros it Hit. unfold report.
    destruct (job_data state) as [|j js] eqn:Hj; [by apply elem_of_nil in Hit|].
    cbn [truthy]. rewrite !elem_of_app, elem_of_cons.
    right. left. right. unfold bullets.
    apply list_elem_of_fmap. by exists it.
  - intros it Hit. unfold report.
    destruct (news_data state) as [|n ns] eqn:Hn; [by apply elem_of_nil in Hit|].
    cbn [truthy]. rewrite !elem_of_app, (elem_of_cons (bullets _)).
    right. right. left. right. unfold bullets.
    apply list_elem_of_fmap. by exists it.
Qed.


(** X12: the insight of a run says that no data is available exactly when
    the run has gathered neither a job nor a news entry. *)
Theorem no_data_insight_iff_nothing_gathered w subject io :
  unless_console_raises w (run w subject) io (fun final io' =>
    insights final = lit "No data available for analysis" ↔
    job_data final = [] ∧ news_data final = []).
Proof.
  eapply ucr_impl; [apply run_result|].
  intros final io' (-> & _). cbn [insights job_data news_data].
  case_decide as Hempty; split; done.
Qed.

(** ** The configurations of a run (lines 167-185, 201-210) *)

Lemma pending_of_workflow_nodes :
  pending [lit "planner"] = [lit "planner"] ∧
  pending [lit "jobs"] = [lit "jobs"] ∧
  pending [lit "news"] = [lit "news"] ∧
  pending [lit "insight_gen"] = [lit "insight_gen"] ∧
  pending [lit "dashboard"] = [lit "dashboard"] ∧
  pending [END] = [].
Proof. repeat split; reflexivity. Qed.

Lemma lifecycle_step w subject c c' :
  (active c, current c) ∈ lifecycle w subject ->
  step (create_workflow w) c c' ->
  (active c', current c') ∈ lifecycle w subject.
Proof.
  destruct (workflow_successors w) as (E0 & E1 & E2 & E3 & E4 & E5).
  destruct (workflow_nodes w) as (N1 & N2 & N3 & N4 & N5).
  destruct pending_of_workflow_nodes as (P1 & P2 & P3 & P4 & P5 & P6).
  intros Hc Hstep.
  inversion Hstep as [act n f state state' io io' Hp Hn Hf]; subst c c'.
  cbn [active current] in *. unfold lifecycle in *.
  rewrite !elem_of_cons, elem_of_nil in Hc.
  rewrite !elem_of_cons, elem_of_nil.
  destruct Hc as [Hc|[Hc|[Hc|[Hc|[Hc|[Hc|[]]]]]]];
    injection Hc as -> ->.
  - rewrite P1 in Hp. injection Hp as <-.
    pose proof (eq_trans (eq_sym Hn) N1) as Hnf. injection Hnf as ->.
    apply (ucr_Ok _ _ _ _ _ _ (intelligence_planner_spec w _ io)) in Hf
      as (-> & _).
    rewrite E1. right. left. reflexivity.
  - rewrite P2 in Hp. injection Hp as <-.
    pose proof (eq_trans (eq_sym Hn) N2) as Hnf. injection Hnf as ->.
    apply (ucr_Ok _ _ _ _ _ _ (job_scout_spec w _ io)) in Hf as (-> & _).
    rewrite E2. right. right. left. reflexivity.
  - rewrite P3 in Hp. injection Hp as <-.
    pose proof (eq_trans (eq_sym Hn) N3) as Hnf. injection Hnf as ->.
    apply (ucr_Ok _ _ _ _ _ _ (news_hunter_spec w _ io)) in Hf as (-> & _).
    rewrite E3. right. right. right. left. reflexivity.
  - rewrite P4 in Hp. injection Hp as <-.
    pose proof (eq_trans (eq_sym Hn) N4) as Hnf. injection Hnf as ->.
    apply (ucr_Ok _ _ _ _ _ _ (insight_generator_spec w _ io)) in Hf
      as (-> & _).
    rewrite E4. right. right. right. right. left. reflexivity.
  - rewrite P5 in Hp. injection Hp as <-.
    pose proof (eq_trans (eq_sym Hn) N5) as Hnf. injection Hnf as ->.
    apply (ucr_Ok _ _ _ _ _ _ (dashboard_builder_spec w _ io)) in Hf
      as (-> & _).
    rewrite E5. right. right. right. right. right. left. reflexivity.
  - rewrite P6 in Hp. discriminate.
Qed.

(** X13: a run goes through at most six configurations, one after each
    superstep: before a stage has run its field is as [main] initialised
    it, after the stage it has the stage's value and keeps it to the end.
    So [use_mcp] is [False] throughout, and never are two nodes to run in
    one superstep. *)
Theorem run_lifecycle w subject io c :
  reachable w subject io c ->
  (active c, current c) ∈ lifecycle w subject ∧
  use_mcp (current c) = false ∧
  length (pending (active c)) ≤ 1.
Proof.
  unfold reachable. intros Hreach.
  assert (Hin : (active c, current c) ∈ lifecycle w subject).
  { remember (mkConfig (successors (create_workflow w) START)
                (initial_state subject) io) as c0 eqn:Hc0.
    assert (H0 : (active c0, current c0) ∈ lifecycle w subject).
    { subst c0. destruct (workflow_successors w) as (-> & _).
      unfold lifecycle. apply list_elem_of_here. }
    clear Hc0.
    induction Hreach as [c|c c' c'' Hstep _ IH]; [exact H0|].
    apply IH. eapply lifecycle_step; eassumption. }
  split; [exact Hin|].
  destruct pending_of_workflow_nodes as (P1 & P2 & P3 & P4 & P5 & P6).
  unfold lifecycle in Hin. rewrite !elem_of_cons, elem_of_nil in Hin.
  destruct Hin as [H|[H|[H|[H|[H|[H|[]]]]]]];
    injection H as -> ->; (split; [reflexivity|]);
    rewrite ?P1, ?P2, ?P3, ?P4, ?P5, ?P6; simpl; lia.
Qed.

(** The configuration after the planning superstep of an offline run. *)
Lemma run_lifecycle_after_planner :
  ∃ state' io',
    intelligence_planner offline (initial_state (lit "Acme")) no_io = (Ok state', io') ∧
    use_mcp state' = false.
Proof.
  eexists _, _. split; [vm_compute; reflexivity|].
  refine (proj1 (proj2 (run_lifecycle offline (lit "Acme") no_io
            (mkConfig (successors (create_workflow offline) (lit "planner")) _ _) _))).
  apply rtc_once.
  apply (step_node _ _ (lit "planner") (intelligence_planner offline));
    reflexivity.
Defined.

(** ** When a list stays empty, and what the console shows *)

Lemma kept_nil_iff src (els : list element) :
  foldl (keep_title src) [] els = [] ↔
  Forall (fun e => length (get_text e) ≤ 10) els.
Proof.
  rewrite kept_titles. induction els as [|e els IH].
  - split; [constructor | done].
  - rewrite filter_cons. unfold long_enough at 1. case_decide as Hlong.
    + split; [done|]. intros H. apply Forall_cons in H as [H _]. lia.
    + rewrite IH. split.
      * intros H. constructor; [lia | exact H].
      * intros H. by apply Forall_cons in H as [_ H].
Qed.

(** X14: [job_data] of a run is empty exactly when the careers page could
    not be had or none of its first three job-like tags has a text longer
    than 10 characters; the final state does not tell which.  The same
    holds for [news_data] and the first three headings of the blog page. *)
Theorem empty_list_iff_failure_or_short_texts w subject io :
  unless_console_raises w (run w subject) io (fun final io' =>
    (job_data final = [] ↔
     match fetched w (careers_url w subject) with
     | Raise _ => True
     | Ok doc => Forall (fun e => length (get_text e) ≤ 10)
                        (take 3 (List.filter (job_like w) doc))
     end) ∧
    (news_data final = [] ↔
     match fetched w (blog_url w subject) with
     | Raise _ => True
     | Ok doc => Forall (fun e => length (get_text e) ≤ 10)
                        (take 3 (List.filter heading doc))
     end)).
Proof.
  eapply ucr_impl; [apply run_result|].
  intros final io' (-> & _). cbn [job_data news_data].
  split.
  - destruct (fetched w (careers_url w subject)) as [doc|e]; cbn [or_nothing];
      [apply kept_nil_iff | done].
  - destruct (fetched w (blog_url w subject)) as [doc|e]; cbn [or_nothing];
      [apply kept_nil_iff | done].
Qed.

(** X15: a scout writes its list afresh from the subject: on two states
    with the same [competitor], whatever their other fields hold, it
    writes the same list, and entries already in the list are dropped. *)
Theorem scouts_overwrite w state1 state2 io1 io2 :
  competitor state1 = competitor state2 ->
  ∃ jobs news,
    unless_console_raises w (job_scout w state1) io1 (fun state' _ =>
      state' = with_job_data jobs state1) ∧
    unless_console_raises w (job_scout w state2) io2 (fun state' _ =>
      state' = with_job_data jobs state2) ∧
    unless_console_raises w (news_hunter w state1) io1 (fun state' _ =>
      state' = with_news_data news state1) ∧
    unless_console_raises w (news_hunter w state2) io2 (fun state' _ =>
      state' = with_news_data news state2).
Proof.
  intros Hsame.
  exists (or_nothing (jobs_in w) (fetched w (careers_url w (competitor state1)))),
         (or_nothing news_in (fetched w (blog_url w (competitor state1)))).
  repeat split.
  - eapply ucr_impl; [apply job_scout_spec|]. by intros s' io' (-> & _).
  - eapply ucr_impl; [apply job_scout_spec|]. intros s' io' (-> & _).
    by rewrite Hsame.
  - eapply ucr_impl; [apply news_hunter_spec|]. by intros s' io' (-> & _).
  - eapply ucr_impl; [apply news_hunter_spec|]. intros s' io' (-> & _).
    by rewrite Hsame.
Qed.

(** A state that already holds an entry: [job_scout] drops it. *)
Lemma scouts_overwrite_stale_entry :
  ∃ io',
    job_scout offline
      (with_job_data [mkItem (lit "A stale posting") (lit "careers_page")]
         (initial_state (lit "Acme"))) no_io
    = (Ok (with_job_data []
             (with_job_data [mkItem (lit "A stale posting") (lit "careers_page")]
                (initial_state (lit "Acme")))), io').
Proof.
  destruct (scouts_overwrite offline (initial_state (lit "Acme"))
              (with_job_data [mkItem (lit "A stale posting") (lit "careers_page")]
                 (initial_state (lit "Acme"))) no_io no_io eq_refl)
    as (jobs & news & H1 & H2 & _).
  destruct (job_scout offline (initial_state (lit "Acme")) no_io)
    as [[s1|e] j1] eqn:E1; [|vm_compute in E1; discriminate].
  pose proof (ucr_Ok _ _ _ _ _ _ H1 E1) as Hs1. cbv beta in Hs1.
  assert (Hjobs : jobs = []).
  { vm_compute in E1. injection E1 as <- _.
    apply (f_equal job_data) in Hs1. by cbn in Hs1. }
  destruct (job_scout offline (with_job_data _ _) no_io)
    as [[s2|e] j2] eqn:E2; [|vm_compute in E2; discriminate].
  exists j2. pose proof (ucr_Ok _ _ _ _ _ _ H2 E2) as Hs2. cbv beta in Hs2.
  by rewrite Hs2, Hjobs.
Defined.

(** X16: what a scout does, case by case.  It announces itself with the
    subject, and raises with nothing requested when the console rejects
    that line.  Otherwise it makes its one request.  With the page in hand
    it reports the number of entries it kept, also when that is 0, and
    returns them.  When the request or the parser raised, it reports the
    message of the exception, after the request has gone out, and returns
    the empty list; when the console rejects that message, the exception
    of the console leaves the stage in place of the empty list. *)
Theorem scouts_say_what_happened w state io :
  job_scout w state io =
  match console w (Markup (lit "[yellow]" ++ MAGNIFIER ++
          lit " Scouting jobs for " ++ competitor state ++ lit "...[/yellow]")) with
  | Raise e => (Raise e, io)
  | Ok _ =>
      let said := stdout io ++
        [Markup (lit "[yellow]" ++ MAGNIFIER ++ lit " Scouting jobs for " ++
           competitor state ++ lit "...[/yellow]")] in
      let asked := requested io ++ [careers_url w (competitor state)] in
      match fetched w (careers_url w (competitor state)) with
      | Ok doc =>
          (Ok (with_job_data (jobs_in w doc) state),
           mkIO (said ++
                   [Markup (lit "[green]" ++ CHECK_MARK ++ lit " Found " ++
                      str_of_nat (length (jobs_in w doc)) ++
                      lit " job listings[/green]")])
                asked)
      | Raise e =>
          match console w (Markup (lit "[red]" ++ CROSS_MARK ++
                  lit " Job scraping failed: " ++ str_exn e ++ lit "[/red]")) with
          | Ok _ =>
              (Ok (with_job_data [] state),
               mkIO (said ++
                       [Markup (lit "[red]" ++ CROSS_MARK ++
                          lit " Job scraping failed: " ++ str_exn e ++ lit "[/red]")])
                    asked)
          | Raise e' => (Raise e', mkIO said asked)
          end
      end
  end ∧
  news_hunter w state io =
  match console w (Markup (lit "[yellow]" ++ NEWSPAPER ++
          lit " Hunting news for " ++ competitor state ++ lit "...[/yellow]")) with
  | Raise e => (Raise e, io)
  | Ok _ =>
      let said := stdout io ++
        [Markup (lit "[yellow]" ++ NEWSPAPER ++ lit " Hunting news for " ++
           competitor state ++ lit "...[/yellow]")] in
      let asked := requested io ++ [blog_url w (competitor state)] in
      match fetched w (blog_url w (competitor state)) with
      | Ok doc =>
          (Ok (with_news_data (news_in doc) state),
           mkIO (said ++
                   [Markup (lit "[green]" ++ CHECK_MARK ++ lit " Found " ++
                      str_of_nat (length (news_in doc)) ++
                      lit " news items[/green]")])
                asked)
      | Raise e =>
          match console w (Markup (lit "[red]" ++ CROSS_MARK ++
                  lit " News scraping failed: " ++ str_exn e ++ lit "[/red]")) with
          | Ok _ =>
              (Ok (with_news_data [] state),
               mkIO (said ++
                       [Markup (lit "[red]" ++ CROSS_MARK ++
                          lit " News scraping failed: " ++ str_exn e ++ lit "[/red]")])
                    asked)
          | Raise e' => (Raise e', mkIO said asked)
          end
      end
  end.
Proof. split; [apply job_scout_run | apply news_hunter_run]. Qed.


(** ** The console of the example worlds on small inputs *)

Example read_markup_cases :
  read_markup (lit "[blue]for Acme[/blue]") = Ok tt ∧
  read_markup (lit "[blue]for [/x][/blue]") = Raise MarkupError ∧
  read_markup (lit "[blue]for x[/blue]y[/blue]") = Raise MarkupError ∧
  read_markup (lit "[bold cyan]HIRING[/bold cyan]") = Ok tt ∧
  read_markup (lit "see [1] and [Errno -2]") = Ok tt ∧
  read_markup (lit "an open [b] tag") = Ok tt ∧
  read_markup (lit "[b]closed by[/]") = Ok tt ∧
  read_markup (lit "[/]") = Raise MarkupError ∧
  read_markup (lit "escaped \[/x]") = Ok tt ∧
  read_markup (lit "not escaped \\[/x]") = Raise MarkupError.
Proof. repeat split. Qed.
